(** * SpecScore: the criteria evaluation engine and its aggregator

    A shallow embedding of [src/lib/evaluators.ts] (the seven criteria
    evaluators) and of the scoring part of [src/lib/reporter.ts]
    ([scoreSpec], [calculateGrade], [generateOverallFeedback]), followed by
    the properties the specification states about them.

    Conventions of the embedding.
    - A JavaScript number is an exact rational or [NaN] (module [JS]).  Every
      quantity the evaluators compute is a small count, a quotient of two
      counts scaled by a literal, or a sum of such terms.  The code computes
      them in binary64: a quotient such as 1/3 carries a relative error of
      2^-53, so an unrounded score or percentage that is exactly half-way
      between two integers here may be rounded the other way by the code.
      The properties below are stated so that they hold of both: ranges,
      integrality, instances whose arithmetic is exact in binary64, and
      equalities up to [Spec.tolerance].
    - A JavaScript object used as a string-keyed map is an association list in
      key order (module [Dict]); keys of a parsed document are unique.
    - A string is a sequence of code units, written with [string]/[ascii].
    - An optional field is an [option]; a value of a union type
      ([ReferenceObject | X]) is an inductive with one constructor per arm.
    - The local mutable [score], [feedback] and [suggestions] of an evaluator
      are threaded through a record ([Tally]); [forEach] loops over counters
      are left folds over a tuple of counters. *)

From Stdlib Require Import ZArith QArith Qround Qminmax Lia Lqa.
From Stdlib Require Import List String Ascii Bool.
From Stdlib Require Import Permutation Sorted.
From Stdlib Require Import DecimalString.
Import ListNotations.

Set Warnings "-register-all".
Local Open Scope string_scope.
Local Open Scope list_scope.

(** ** JavaScript values *)

Module JS.

(** A number: an exact rational or NaN.  Infinities are left out: the only
    division by zero the evaluators can perform is [0 / 0] (see
    [wellNamed_le_pathCount] below), which is NaN. *)
Inductive number : Type :=
| Num (q : Q)
| NaN.

Definition of_Z (z : Z) : number := Num (inject_Z z).
Definition of_nat (n : nat) : number := of_Z (Z.of_nat n).

Definition add (x y : number) : number :=
  match x, y with
  | Num a, Num b => Num (a + b)
  | _, _ => NaN
  end.

Definition sub (x y : number) : number :=
  match x, y with
  | Num a, Num b => Num (a - b)
  | _, _ => NaN
  end.

Definition mul (x y : number) : number :=
  match x, y with
  | Num a, Num b => Num (a * b)
  | _, _ => NaN
  end.

(** [x / y]; a zero divisor gives NaN (exact for [0 / 0]). *)
Definition div (x y : number) : number :=
  match x, y with
  | Num a, Num b => if Qeq_bool b 0 then NaN else Num (a / b)
  | _, _ => NaN
  end.

(** [Math.min(x, y)]: NaN when either argument is. *)
Definition min (x y : number) : number :=
  match x, y with
  | Num a, Num b => Num (if Qle_bool a b then a else b)
  | _, _ => NaN
  end.

(** [x < y], [x > y], [x >= y], [x === y]: false as soon as a NaN is involved. *)
Definition ltb (x y : number) : bool :=
  match x, y with
  | Num a, Num b => negb (Qle_bool b a)
  | _, _ => false
  end.

Definition gtb (x y : number) : bool := ltb y x.

Definition geb (x y : number) : bool :=
  match x, y with
  | Num a, Num b => Qle_bool b a
  | _, _ => false
  end.

Definition eqb (x y : number) : bool :=
  match x, y with
  | Num a, Num b => Qeq_bool a b
  | _, _ => false
  end.

(** [Math.round]: the nearest integer, halves rounded up. *)
Definition round (x : number) : number :=
  match x with
  | Num q => of_Z (Qfloor (q + (1 # 2)))
  | NaN => NaN
  end.

(** Template-literal rendering of a counter and of an integral number. *)
Definition string_of_nat (n : nat) : string :=
  NilZero.string_of_uint (Nat.to_uint n).

Definition string_of_Z (z : Z) : string :=
  NilZero.string_of_int (Z.to_int z).

(** Only applied to results of [round]. *)
Definition to_string (x : number) : string :=
  match x with
  | Num q => string_of_Z (Qfloor q)
  | NaN => "NaN"
  end.

(** A value of type [any] (a media type's [example]). *)
Inductive value : Type :=
| Null
| Boolean (b : bool)
| Number (x : number)
| Str (s : string)
| Arr (l : list value)
| Obj (l : list (string * value)).

(** Truthiness, as [&&], [||], [!] and [if] test it. *)
Definition truthy (v : value) : bool :=
  match v with
  | Null => false
  | Boolean b => b
  | Number (Num q) => negb (Qeq_bool q 0)
  | Number NaN => false
  | Str s => negb (String.eqb s "")
  | Arr _ => true
  | Obj _ => true
  end.

(** An optional string field used as a condition: present and non-empty. *)
Definition truthy_string (s : option string) : bool :=
  match s with
  | Some s => negb (String.eqb s "")
  | None => false
  end.

(** An optional object or array field used as a condition: present. *)
Definition present {A : Type} (o : option A) : bool :=
  match o with
  | Some _ => true
  | None => false
  end.

End JS.

(** ** String-keyed objects *)

Module Dict.

Definition t (V : Type) : Type := list (string * V).

Definition keys {V : Type} (d : t V) : list string := map fst d.
Definition values {V : Type} (d : t V) : list V := map snd d.

(** [d[k]] *)
Fixpoint lookup {V : Type} (k : string) (d : t V) : option V :=
  match d with
  | [] => None
  | (k', v) :: d' => if String.eqb k k' then Some v else lookup k d'
  end.

(** [d || {}] for an optional object. *)
Definition or_empty {V : Type} (o : option (t V)) : t V :=
  match o with
  | Some d => d
  | None => []
  end.

End Dict.

(** [Set<string>], in insertion order. *)
Module StringSet.

Definition t : Type := list string.

Definition empty : t := [].

Definition has (s : t) (x : string) : bool :=
  existsb (String.eqb x) s.

Definition add (s : t) (x : string) : t :=
  if has s x then s else s ++ [x].

Definition size (s : t) : nat := List.length s.

End StringSet.

(** [l.forEach(x => ...)] over a loop state. *)
Definition forEach {A S : Type} (l : list A) (s : S) (body : S -> A -> S) : S :=
  fold_left body l s.

(** ** The document (the part of [OpenAPIV3] the evaluators read) *)

Module Schema.
(** [ReferenceObject | SchemaObject] *)
Inductive t : Type :=
| Ref (ref : string)
| Object (type : option string)
         (properties : option (list (string * t)))
         (additionalProperties : option (bool + t)).

(** ['type' in schema] *)
Definition has_type (s : t) : bool :=
  match s with
  | Object (Some _) _ _ => true
  | _ => false
  end.

(** [schema.type === 'object'] *)
Definition type_is_object (s : t) : bool :=
  match s with
  | Object (Some ty) _ _ => String.eqb ty "object"
  | _ => false
  end.

(** [schema.properties] as a condition *)
Definition properties_truthy (s : t) : bool :=
  match s with
  | Object _ (Some _) _ => true
  | _ => false
  end.

(** [schema.additionalProperties] as a condition *)
Definition additionalProperties_truthy (s : t) : bool :=
  match s with
  | Object _ _ (Some (inl b)) => b
  | Object _ _ (Some (inr _)) => true
  | _ => false
  end.
End Schema.

Module MediaType.
Record t : Type := mk {
  schema : option Schema.t;
  example : option JS.value;
  examples : option (Dict.t JS.value)
}.

(** [mediaType.example || mediaType.examples] *)
Definition has_example (m : t) : bool :=
  match example m with
  | Some v => JS.truthy v || JS.present (examples m)
  | None => JS.present (examples m)
  end.
End MediaType.

Module Response.
(** [ReferenceObject | ResponseObject] *)
Inductive t : Type :=
| Ref (ref : string)
| Object (description : string) (content : option (Dict.t MediaType.t)).

(** ['description' in response && response.description] *)
Definition has_description (r : t) : bool :=
  match r with
  | Object d _ => negb (String.eqb d "")
  | Ref _ => false
  end.
End Response.

Module RequestBody.
(** [ReferenceObject | RequestBodyObject] *)
Inductive t : Type :=
| Ref (ref : string)
| Object (content : Dict.t MediaType.t).
End RequestBody.

Module Param.
(** [ReferenceObject | ParameterObject] *)
Inductive t : Type :=
| Ref (ref : string)
| Object (name : string) (location : string) (description : option string).

(** ['description' in param && param.description] *)
Definition has_description (p : t) : bool :=
  match p with
  | Object _ _ d => JS.truthy_string d
  | Ref _ => false
  end.
End Param.

(** A security requirement: scheme name to scopes. *)
Definition SecurityRequirement : Type := Dict.t (list string).

Module Operation.
Record t : Type := mk {
  description : option string;
  tags : option (list string);
  parameters : option (list Param.t);
  requestBody : option RequestBody.t;
  responses : Dict.t Response.t;
  security : option (list SecurityRequirement)
}.
End Operation.

Module PathItem.
Record t : Type := mk {
  description : option string;
  get : option Operation.t;
  put : option Operation.t;
  post : option Operation.t;
  delete : option Operation.t;
  options : option Operation.t;
  head : option Operation.t;
  patch : option Operation.t;
  trace : option Operation.t
}.

(** [pathItem[method]] for a method name. *)
Definition method (p : t) (m : string) : option Operation.t :=
  if String.eqb m "get" then get p
  else if String.eqb m "put" then put p
  else if String.eqb m "post" then post p
  else if String.eqb m "delete" then delete p
  else if String.eqb m "options" then options p
  else if String.eqb m "head" then head p
  else if String.eqb m "patch" then patch p
  else if String.eqb m "trace" then trace p
  else None.

(** [Object.keys(pathItem)]: the names of the fields that are present.  The
    evaluators only filter this list and test membership, so its order does
    not matter. *)
Definition keys (p : t) : list string :=
  (if JS.present (description p) then ["description"] else [])
  ++ filter (fun m => JS.present (method p m))
       ["get"; "put"; "post"; "delete"; "options"; "head"; "patch"; "trace"].
End PathItem.

Module Info.
Record t : Type := mk {
  title : string;
  version : string;
  description : option string
}.
End Info.

Module Components.
Record t : Type := mk {
  schemas : option (Dict.t Schema.t);
  responses : option (Dict.t Response.t);
  parameters : option (Dict.t Param.t);
  examples : option (Dict.t JS.value);
  requestBodies : option (Dict.t RequestBody.t);
  headers : option (Dict.t JS.value);
  securitySchemes : option (Dict.t JS.value)
}.

(** [Object.keys(components[type] || {}).length] for a category name. *)
Definition category_size (c : t) (type : string) : option nat :=
  let size {V} (o : option (Dict.t V)) := option_map (@List.length _) o in
  if String.eqb type "schemas" then size (schemas c)
  else if String.eqb type "responses" then size (responses c)
  else if String.eqb type "parameters" then size (parameters c)
  else if String.eqb type "examples" then size (examples c)
  else if String.eqb type "requestBodies" then size (requestBodies c)
  else if String.eqb type "headers" then size (headers c)
  else if String.eqb type "securitySchemes" then size (securitySchemes c)
  else None.
End Components.

Module Document.
Record t : Type := mk {
  openapi : string;
  info : Info.t;
  servers : option (list string);
  paths : option (Dict.t (option PathItem.t));
  components : option Components.t;
  security : option (list SecurityRequirement);
  externalDocs : option string
}.
End Document.

(** ** String helpers used by the path checks *)

Module Str.

(** [s.split(sep)] for a one-character separator. *)
Fixpoint split (sep : ascii) (s : string) : list string :=
  match s with
  | EmptyString => [EmptyString]
  | String c s' =>
      if Ascii.eqb c sep then EmptyString :: split sep s'
      else match split sep s' with
           | segment :: rest => String c segment :: rest
           | [] => [String c EmptyString]
           end
  end.

(** [s.startsWith(p)] *)
Definition startsWith (p s : string) : bool := String.prefix p s.

Fixpoint existsc (p : ascii -> bool) (s : string) : bool :=
  match s with
  | EmptyString => false
  | String c s' => p c || existsc p s'
  end.

Fixpoint forallc (p : ascii -> bool) (s : string) : bool :=
  match s with
  | EmptyString => true
  | String c s' => p c && forallc p s'
  end.

Definition between (lo hi c : ascii) : bool :=
  (nat_of_ascii lo <=? nat_of_ascii c)%nat && (nat_of_ascii c <=? nat_of_ascii hi)%nat.

(** [s.includes('_')] *)
Definition includes_underscore (s : string) : bool :=
  existsc (Ascii.eqb "_") s.

(** [/[A-Z]/.test(s)] *)
Definition has_uppercase (s : string) : bool :=
  existsc (between "A" "Z") s.

(** [/^[a-z0-9-]+$/.test(s)] *)
Definition is_kebab (s : string) : bool :=
  negb (String.eqb s "")
  && forallc (fun c => between "a" "z" c || between "0" "9" c || Ascii.eqb c "-") s.

(** The length of the match of [[^}]+\}] at the start of [s], if there is
    one: at least one character other than a closing brace, then the brace. *)
Fixpoint param_tail (seen : nat) (s : string) : option nat :=
  match s with
  | EmptyString => None
  | String c s' =>
      if Ascii.eqb c "}" then
        match seen with
        | O => None
        | S _ => Some (S seen)
        end
      else param_tail (S seen) s'
  end.

(** [s.replace(/\{[^}]+\}/g, '{id}')], scanning left to right; [skip] is the
    number of characters still covered by the match just replaced. *)
Fixpoint replace_params (skip : nat) (s : string) : string :=
  match s with
  | EmptyString => EmptyString
  | String c s' =>
      match skip with
      | S k => replace_params k s'
      | O =>
          if Ascii.eqb c "{" then
            match param_tail 0 s' with
            | Some n => "{id}" ++ replace_params n s'
            | None => String c (replace_params 0 s')
            end
          else String c (replace_params 0 s')
      end
  end.

End Str.

(** ** The evaluators ([src/lib/evaluators.ts]) *)

Record CriteriaScore : Type := mkCriteriaScore {
  name : string;
  score : JS.number;
  maxScore : JS.number;
  percentage : JS.number;
  feedback : list string;
  suggestions : list string
}.

(** The three locals every evaluator updates: [score], [feedback] and
    [suggestions]. *)
Module Tally.

Record t : Type := mk {
  score : JS.number;
  feedback : list string;
  suggestions : list string
}.

Definition start : t := mk (JS.of_nat 0) [] [].

(** [score += x] *)
Definition award (x : JS.number) (r : t) : t :=
  mk (JS.add (score r) x) (feedback r) (suggestions r).

(** [feedback.push(msg)] *)
Definition finding (msg : string) (r : t) : t :=
  mk (score r) (feedback r ++ [msg]) (suggestions r).

(** [suggestions.push(msg)] *)
Definition suggest (msg : string) (r : t) : t :=
  mk (score r) (feedback r) (suggestions r ++ [msg]).

(** The object every evaluator returns at its end. *)
Definition result (name : string) (maxScore : JS.number) (r : t) : CriteriaScore :=
  mkCriteriaScore
    name
    (JS.round (score r))
    maxScore
    (JS.round (JS.mul (JS.div (score r) maxScore) (JS.of_nat 100)))
    (feedback r)
    (suggestions r).

End Tally.

Module Evaluators.

Import JS.

Definition scored_methods : list string :=
  ["get"; "post"; "put"; "patch"; "delete"].

Definition all_methods : list string :=
  ["get"; "post"; "put"; "patch"; "delete"; "options"; "head"; "trace"].

(** [methods.forEach((method) => { const operation = pathItem[method];
    if (operation) { ... } })] *)
Definition forEachMethod {S : Type} (methods : list string) (pathItem : PathItem.t)
    (s : S) (body : S -> Operation.t -> S) : S :=
  forEach methods s (fun s method =>
    match PathItem.method pathItem method with
    | Some operation => body s operation
    | None => s
    end).

(** [Object.values(document.paths).forEach((pathItem) => { if (pathItem) {
    methods.forEach(...) } })] *)
Definition forEachOperation {S : Type} (methods : list string)
    (paths : Dict.t (option PathItem.t)) (s : S) (body : S -> Operation.t -> S) : S :=
  forEach (Dict.values paths) s (fun s pathItem =>
    match pathItem with
    | Some pathItem => forEachMethod methods pathItem s body
    | None => s
    end).

(** [(a / b) * k] for two counters and a literal. *)
Definition share (a b : nat) (k : nat) : number :=
  mul (div (of_nat a) (of_nat b)) (of_nat k).

(** [maxScore * f] for a literal fraction [f]. *)
Definition fraction_of (maxScore : number) (f : Q) : number :=
  mul maxScore (Num f).

(** *** Schema & Types *)

(** [document.components?.schemas || {}] *)
Definition named_schemas (document : Document.t) : Dict.t Schema.t :=
  match Document.components document with
  | Some c => Dict.or_empty (Components.schemas c)
  | None => []
  end.

(** The [schemas] loop: [(properlyTypedSchemas, freeFormObjects)]. *)
Definition count_schemas (schemas : Dict.t Schema.t) : nat * nat :=
  forEach (Dict.values schemas) (0%nat, 0%nat) (fun '(properlyTyped, freeForm) schema =>
    if Schema.has_type schema then
      if Schema.type_is_object schema && Schema.properties_truthy schema then
        (S properlyTyped, freeForm)
      else if Schema.type_is_object schema
              && negb (Schema.properties_truthy schema)
              && negb (Schema.additionalProperties_truthy schema) then
        (properlyTyped, S freeForm)
      else (properlyTyped, freeForm)
    else (properlyTyped, freeForm)).

(** [Object.values(content).forEach((mediaType) => { if (mediaType.schema)
    operationsWithSchemas++; })] *)
Definition count_media_schemas (content : Dict.t MediaType.t) (n : nat) : nat :=
  forEach (Dict.values content) n (fun n mediaType =>
    if present (MediaType.schema mediaType) then S n else n).

(** The operations loop: [(operationsWithSchemas, totalOperations)]. *)
Definition count_schema_usage (paths : Dict.t (option PathItem.t)) : nat * nat :=
  forEachOperation scored_methods paths (0%nat, 0%nat)
    (fun '(operationsWithSchemas, totalOperations) operation =>
       let totalOperations := S totalOperations in
       let operationsWithSchemas :=
         match Operation.requestBody operation with
         | Some (RequestBody.Object content) =>
             count_media_schemas content operationsWithSchemas
         | _ => operationsWithSchemas
         end in
       let operationsWithSchemas :=
         forEach (Dict.values (Operation.responses operation)) operationsWithSchemas
           (fun n response =>
              match response with
              | Response.Object _ (Some content) => count_media_schemas content n
              | _ => n
              end) in
       (operationsWithSchemas, totalOperations)).

(** The term awarded for properly typed schemas. *)
Definition properly_typed_term (properlyTypedSchemas schemaCount : nat) : number :=
  min (of_nat 10) (share properlyTypedSchemas (Nat.max schemaCount 1) 10).

(** [schemaUsageRatio] and the term awarded for it. *)
Definition schemaUsageRatio (operationsWithSchemas totalOperations : nat) : number :=
  div (of_nat operationsWithSchemas) (of_nat (totalOperations * 2)).

Definition schema_usage_term (operationsWithSchemas totalOperations : nat) : number :=
  min (of_nat 5) (mul (schemaUsageRatio operationsWithSchemas totalOperations) (of_nat 5)).

Definition schemaAndTypes_tally (document : Document.t) : Tally.t :=
  let maxScore := of_nat 20 in
  let r := Tally.start in
  let schemas := named_schemas document in
  let schemaCount := List.length (Dict.keys schemas) in
  let r :=
    if (0 <? schemaCount)%nat then
      Tally.finding ("Found " ++ string_of_nat schemaCount ++ " schema definitions")
        (Tally.award (of_nat 5) r)
    else
      Tally.suggest "Define reusable schemas in components.schemas"
        (Tally.finding "No schema definitions found" r) in
  let '(properlyTypedSchemas, freeFormObjects) := count_schemas schemas in
  let r :=
    if (0 <? properlyTypedSchemas)%nat then
      Tally.finding
        (string_of_nat properlyTypedSchemas ++ " schemas have proper type definitions")
        (Tally.award (properly_typed_term properlyTypedSchemas schemaCount) r)
    else r in
  let r :=
    if (0 <? freeFormObjects)%nat then
      Tally.suggest
        "Define specific properties for object schemas instead of using free-form objects"
        (Tally.finding
           (string_of_nat freeFormObjects
            ++ " schemas are free-form objects without properties") r)
    else r in
  let '(operationsWithSchemas, totalOperations) :=
    match Document.paths document with
    | Some paths => count_schema_usage paths
    | None => (0%nat, 0%nat)
    end in
  let r :=
    if (0 <? totalOperations)%nat then
      Tally.finding
        (to_string
           (round (mul (schemaUsageRatio operationsWithSchemas totalOperations)
                     (of_nat 100)))
         ++ "% of operations use proper schemas")
        (Tally.award (schema_usage_term operationsWithSchemas totalOperations) r)
    else r in
  if ltb (Tally.score r) (fraction_of maxScore (1 # 2)) then
    Tally.suggest "Increase use of strongly-typed schemas throughout the API" r
  else r.

Definition scoreSchemaAndTypes (document : Document.t) : CriteriaScore :=
  Tally.result "Schema & Types" (of_nat 20) (schemaAndTypes_tally document).

(** *** Descriptions & Documentation *)

Record DescriptionCounts : Type := mkDescriptionCounts {
  pathsWithDescriptions : nat;
  operationsWithDescriptions : nat;
  parametersWithDescriptions : nat;
  responsesWithDescriptions : nat;
  totalOperations : nat;
  totalParameters : nat;
  totalResponses : nat
}.

(** What one operation adds to the counters. *)
Definition describe_operation (c : DescriptionCounts) (operation : Operation.t)
    : DescriptionCounts :=
  let withDescription :=
    match Operation.description operation with
    | Some d => (5 <? String.length d)%nat
    | None => false
    end in
  let '(parametersWith, parameters) :=
    match Operation.parameters operation with
    | Some params =>
        forEach params (parametersWithDescriptions c, totalParameters c)
          (fun '(withD, total) param =>
             (if Param.has_description param then S withD else withD, S total))
    | None => (parametersWithDescriptions c, totalParameters c)
    end in
  let '(responsesWith, responses) :=
    forEach (Dict.values (Operation.responses operation))
      (responsesWithDescriptions c, totalResponses c)
      (fun '(withD, total) response =>
         (if Response.has_description response then S withD else withD, S total)) in
  mkDescriptionCounts
    (pathsWithDescriptions c)
    (if withDescription then S (operationsWithDescriptions c)
     else operationsWithDescriptions c)
    parametersWith
    responsesWith
    (S (totalOperations c))
    parameters
    responses.

(** The loop over [Object.entries(document.paths)]. *)
Definition count_descriptions (paths : Dict.t (option PathItem.t)) : DescriptionCounts :=
  forEach (Dict.values paths) (mkDescriptionCounts 0 0 0 0 0 0 0) (fun c pathItem =>
    match pathItem with
    | Some pathItem =>
        let c :=
          if truthy_string (PathItem.description pathItem) then
            mkDescriptionCounts
              (S (pathsWithDescriptions c)) (operationsWithDescriptions c)
              (parametersWithDescriptions c) (responsesWithDescriptions c)
              (totalOperations c) (totalParameters c) (totalResponses c)
          else c in
        forEachMethod all_methods pathItem c describe_operation
    | None => c
    end).

Definition descriptions_tally (document : Document.t) : Tally.t :=
  let maxScore := of_nat 20 in
  let r := Tally.start in
  let r :=
    if match Info.description (Document.info document) with
       | Some d => negb (String.eqb d "") && (10 <? String.length d)%nat
       | None => false
       end
    then Tally.finding "API has a meaningful description" (Tally.award (of_nat 3) r)
    else Tally.suggest "Add a comprehensive description to the API info object" r in
  let '(totalPaths, c) :=
    match Document.paths document with
    | Some paths => (List.length (Dict.keys paths), count_descriptions paths)
    | None => (0%nat, mkDescriptionCounts 0 0 0 0 0 0 0)
    end in
  let r :=
    if (0 <? totalOperations c)%nat then
      Tally.finding
        (string_of_nat (operationsWithDescriptions c) ++ "/"
         ++ string_of_nat (totalOperations c) ++ " operations have descriptions")
        (Tally.award (share (operationsWithDescriptions c) (totalOperations c) 8) r)
    else r in
  let r :=
    if (0 <? totalParameters c)%nat then
      Tally.finding
        (string_of_nat (parametersWithDescriptions c) ++ "/"
         ++ string_of_nat (totalParameters c) ++ " parameters have descriptions")
        (Tally.award (share (parametersWithDescriptions c) (totalParameters c) 4) r)
    else r in
  let r :=
    if (0 <? totalResponses c)%nat then
      Tally.finding
        (string_of_nat (responsesWithDescriptions c) ++ "/"
         ++ string_of_nat (totalResponses c) ++ " responses have descriptions")
        (Tally.award (share (responsesWithDescriptions c) (totalResponses c) 3) r)
    else r in
  let r :=
    if (0 <? totalPaths)%nat then
      Tally.award (share (pathsWithDescriptions c) totalPaths 2) r
    else r in
  if ltb (Tally.score r) (fraction_of maxScore (7 # 10)) then
    Tally.suggest "Use meaningful descriptions that explain the purpose and behavior"
      (Tally.suggest "Add descriptions to all operations, parameters, and responses" r)
  else r.

Definition scoreDescriptions (document : Document.t) : CriteriaScore :=
  Tally.result "Descriptions & Documentation" (of_nat 20) (descriptions_tally document).

(** *** Paths & Operations *)

Record PathCounts : Type := mkPathCounts {
  wellNamedPaths : nat;
  crudPaths : nat;
  pathPatterns : StringSet.t
}.

(** [path.split('/').filter((segment) => segment && !segment.startsWith('{'))] *)
Definition pathSegments (path : string) : list string :=
  filter (fun segment =>
            negb (String.eqb segment "") && negb (Str.startsWith "{" segment))
    (Str.split "/" path).

(** The flag [isWellNamed] after the loop over the segments. *)
Definition isWellNamed (path : string) : bool :=
  forEach (pathSegments path) true (fun isWellNamed segment =>
    if Str.includes_underscore segment
       || Str.has_uppercase segment
       || negb (Str.is_kebab segment)
    then false else isWellNamed).

(** [path.replace(/\{[^}]+\}/g, '{id}')] *)
Definition normalizedPath (path : string) : string :=
  Str.replace_params 0 path.

(** [Object.keys(pathItem).filter((key) => [...].includes(key))] *)
Definition methods_of (pathItem : PathItem.t) : list string :=
  filter (fun key => existsb (String.eqb key) scored_methods) (PathItem.keys pathItem).

Definition includes (l : list string) (x : string) : bool :=
  existsb (String.eqb x) l.

(** The body of [paths.forEach((path) => ...)]. *)
Definition visit_path (document_paths : Dict.t (option PathItem.t))
    (c : PathCounts) (path : string) : PathCounts :=
  let wellNamed :=
    if isWellNamed path then S (wellNamedPaths c) else wellNamedPaths c in
  match Dict.lookup path document_paths with
  | Some (Some pathItem) =>
      let methods := methods_of pathItem in
      if (0 <? List.length methods)%nat then
        mkPathCounts wellNamed
          (if includes methods "get" && includes methods "post"
           then S (crudPaths c) else crudPaths c)
          (StringSet.add (pathPatterns c) (normalizedPath path))
      else mkPathCounts wellNamed (crudPaths c) (pathPatterns c)
  | _ => mkPathCounts wellNamed (crudPaths c) (pathPatterns c)
  end.

Definition count_paths (document_paths : Dict.t (option PathItem.t)) : PathCounts :=
  forEach (Dict.keys document_paths) (mkPathCounts 0 0 StringSet.empty)
    (visit_path document_paths).

(** [paths.length - pathPatterns.size] *)
Definition overlappingPaths (document_paths : Dict.t (option PathItem.t)) : Z :=
  Z.of_nat (List.length (Dict.keys document_paths))
  - Z.of_nat (StringSet.size (pathPatterns (count_paths document_paths))).

(** The evaluator after its guard, for a document that has [paths]: first
    the naming and CRUD terms, ... *)
Definition naming_and_crud_tally (document_paths : Dict.t (option PathItem.t))
    : Tally.t :=
  let r := Tally.start in
  let paths := Dict.keys document_paths in
  let pathCount := List.length paths in
  let c := count_paths document_paths in
  let r :=
    Tally.finding
      (string_of_nat (wellNamedPaths c) ++ "/" ++ string_of_nat pathCount
       ++ " paths follow RESTful naming conventions")
      (Tally.award (share (wellNamedPaths c) pathCount 7) r) in
  if (0 <? crudPaths c)%nat then
    Tally.finding ("Found " ++ string_of_nat (crudPaths c) ++ " CRUD-pattern endpoints")
      (Tally.award (min (of_nat 5) (of_nat (crudPaths c * 2))) r)
  else r.

(** ... then the redundancy check and the closing suggestions. *)
Definition pathsAndOperations_tally (document_paths : Dict.t (option PathItem.t))
    : Tally.t :=
  let maxScore := of_nat 15 in
  let r := naming_and_crud_tally document_paths in
  let overlapping := overlappingPaths document_paths in
  let r :=
    if (overlapping =? 0)%Z then
      Tally.finding "No overlapping or redundant paths detected"
        (Tally.award (of_nat 3) r)
    else
      Tally.suggest "Review path structure for redundancy"
        (Tally.finding
           (string_of_Z overlapping ++ " potentially overlapping paths detected") r) in
  if ltb (Tally.score r) (fraction_of maxScore (6 # 10)) then
    Tally.suggest "Implement consistent CRUD operations for resources"
      (Tally.suggest "Use RESTful naming conventions (lowercase, hyphens, nouns)" r)
  else r.

Definition scorePathsAndOperations (document : Document.t) : CriteriaScore :=
  let maxScore := of_nat 15 in
  match Document.paths document with
  | None =>
      mkCriteriaScore "Paths & Operations" (of_nat 0) maxScore (of_nat 0)
        ["No paths defined"] ["Define API paths and operations"]
  | Some document_paths =>
      Tally.result "Paths & Operations" maxScore (pathsAndOperations_tally document_paths)
  end.

(** *** Response Codes *)

Record ResponseCounts : Type := mkResponseCounts {
  operationsWithSuccess : nat;
  operationsWithErrors : nat;
  operationsWithMultipleResponses : nat;
  responseOperations : nat;
  statusCodesUsed : StringSet.t
}.

Definition inspect_responses (c : ResponseCounts) (operation : Operation.t)
    : ResponseCounts :=
  let responses := Dict.keys (Operation.responses operation) in
  let responseCount := List.length responses in
  let hasSuccess := existsb (Str.startsWith "2") responses in
  let hasError :=
    existsb (fun code => Str.startsWith "4" code || Str.startsWith "5" code) responses in
  mkResponseCounts
    (if hasSuccess then S (operationsWithSuccess c) else operationsWithSuccess c)
    (if hasError then S (operationsWithErrors c) else operationsWithErrors c)
    (if (1 <? responseCount)%nat then S (operationsWithMultipleResponses c)
     else operationsWithMultipleResponses c)
    (S (responseOperations c))
    (forEach responses (statusCodesUsed c) StringSet.add).

Definition count_responses (paths : Dict.t (option PathItem.t)) : ResponseCounts :=
  forEachOperation scored_methods paths (mkResponseCounts 0 0 0 0 StringSet.empty)
    inspect_responses.

Definition appropriateSuccessCodes : list string := ["200"; "201"; "202"; "204"].

Definition appropriateErrorCodes : list string :=
  ["400"; "401"; "403"; "404"; "409"; "422"; "500"].

Definition responseCodes_tally (document_paths : Dict.t (option PathItem.t)) : Tally.t :=
  let maxScore := of_nat 15 in
  let r := Tally.start in
  let c := count_responses document_paths in
  let totalOperations := responseOperations c in
  let r :=
    if (0 <? totalOperations)%nat then
      let r := Tally.award (share (operationsWithSuccess c) totalOperations 6) r in
      let r := Tally.award (share (operationsWithErrors c) totalOperations 6) r in
      let r :=
        Tally.award (share (operationsWithMultipleResponses c) totalOperations 3) r in
      let r :=
        Tally.finding
          (string_of_nat (operationsWithSuccess c) ++ "/" ++ string_of_nat totalOperations
           ++ " operations define success responses") r in
      let r :=
        Tally.finding
          (string_of_nat (operationsWithErrors c) ++ "/" ++ string_of_nat totalOperations
           ++ " operations define error responses") r in
      Tally.finding
        (string_of_nat (operationsWithMultipleResponses c) ++ "/"
         ++ string_of_nat totalOperations
         ++ " operations define multiple response codes") r
    else r in
  let hasAppropriateSuccess :=
    existsb (StringSet.has (statusCodesUsed c)) appropriateSuccessCodes in
  let hasAppropriateErrors :=
    existsb (StringSet.has (statusCodesUsed c)) appropriateErrorCodes in
  let r :=
    if hasAppropriateSuccess && hasAppropriateErrors then
      Tally.finding "Uses appropriate HTTP status codes" r
    else
      Tally.suggest "Use standard HTTP status codes (200, 201, 400, 404, 500, etc.)" r in
  if ltb (Tally.score r) (fraction_of maxScore (1 # 2)) then
    Tally.suggest "Use specific status codes rather than just 200 and 500"
      (Tally.suggest "Define both success and error responses for all operations" r)
  else r.

Definition scoreResponseCodes (document : Document.t) : CriteriaScore :=
  let maxScore := of_nat 15 in
  match Document.paths document with
  | None =>
      mkCriteriaScore "Response Codes" (of_nat 0) maxScore (of_nat 0)
        ["No paths defined"] ["Define API operations with proper response codes"]
  | Some document_paths =>
      Tally.result "Response Codes" maxScore (responseCodes_tally document_paths)
  end.

(** *** Examples & Samples *)

Record ExampleCounts : Type := mkExampleCounts {
  operationsWithRequestExamples : nat;
  operationsWithResponseExamples : nat;
  totalOperationsWithBodies : nat;
  exampleResponses : nat
}.

(** [Object.values(content).some((mediaType) => mediaType.example ||
    mediaType.examples)] *)
Definition some_example (content : Dict.t MediaType.t) : bool :=
  existsb MediaType.has_example (Dict.values content).

Definition inspect_examples (c : ExampleCounts) (operation : Operation.t)
    : ExampleCounts :=
  let c :=
    match Operation.requestBody operation with
    | Some (RequestBody.Object content) =>
        mkExampleCounts
          (if some_example content then S (operationsWithRequestExamples c)
           else operationsWithRequestExamples c)
          (operationsWithResponseExamples c)
          (S (totalOperationsWithBodies c))
          (exampleResponses c)
    | _ => c
    end in
  forEach (Dict.values (Operation.responses operation)) c (fun c response =>
    match response with
    | Response.Object _ (Some content) =>
        mkExampleCounts
          (operationsWithRequestExamples c)
          (if some_example content then S (operationsWithResponseExamples c)
           else operationsWithResponseExamples c)
          (totalOperationsWithBodies c)
          (S (exampleResponses c))
    | _ => c
    end).

Definition count_examples (paths : Dict.t (option PathItem.t)) : ExampleCounts :=
  forEachOperation scored_methods paths (mkExampleCounts 0 0 0 0) inspect_examples.

Definition examples_tally (document_paths : Dict.t (option PathItem.t)) : Tally.t :=
  let maxScore := of_nat 10 in
  let r := Tally.start in
  let c := count_examples document_paths in
  let r :=
    if (0 <? totalOperationsWithBodies c)%nat then
      Tally.finding
        (string_of_nat (operationsWithRequestExamples c) ++ "/"
         ++ string_of_nat (totalOperationsWithBodies c)
         ++ " request bodies have examples")
        (Tally.award
           (share (operationsWithRequestExamples c) (totalOperationsWithBodies c) 5) r)
    else r in
  let r :=
    if (0 <? exampleResponses c)%nat then
      Tally.finding
        (string_of_nat (operationsWithResponseExamples c) ++ "/"
         ++ string_of_nat (exampleResponses c) ++ " responses have examples")
        (Tally.award
           (share (operationsWithResponseExamples c) (exampleResponses c) 5) r)
    else r in
  if ltb (Tally.score r) (fraction_of maxScore (3 # 10)) then
    Tally.suggest "Examples help developers understand expected data formats"
      (Tally.suggest "Add examples to request bodies and response content" r)
  else r.

Definition scoreExamples (document : Document.t) : CriteriaScore :=
  let maxScore := of_nat 10 in
  match Document.paths document with
  | None =>
      mkCriteriaScore "Examples & Samples" (of_nat 0) maxScore (of_nat 0)
        ["No paths defined"] ["Add request and response examples"]
  | Some document_paths =>
      Tally.result "Examples & Samples" maxScore (examples_tally document_paths)
  end.

(** *** Security *)

(** [document.components?.securitySchemes || {}] *)
Definition securitySchemes (document : Document.t) : Dict.t JS.value :=
  match Document.components document with
  | Some c => Dict.or_empty (Components.securitySchemes c)
  | None => []
  end.

(** The operations loop: [(operationsWithSecurity, totalOperations)]. *)
Definition count_security (paths : Dict.t (option PathItem.t)) : nat * nat :=
  forEachOperation scored_methods paths (0%nat, 0%nat)
    (fun '(operationsWithSecurity, totalOperations) operation =>
       (if present (Operation.security operation) then S operationsWithSecurity
        else operationsWithSecurity,
        S totalOperations)).

(** The term awarded for per-operation security. *)
Definition operation_security_term (operationsWithSecurity totalOperations : nat)
    : number :=
  share operationsWithSecurity totalOperations 2.

(** The evaluator up to the operations loop: the scheme and global
    requirement terms. *)
Definition schemes_tally (document : Document.t) : Tally.t :=
  let r := Tally.start in
  let schemeCount := List.length (Dict.keys (securitySchemes document)) in
  let r :=
    if (0 <? schemeCount)%nat then
      Tally.finding ("Found " ++ string_of_nat schemeCount ++ " security scheme(s) defined")
        (Tally.award (min (of_nat 5) (of_nat (schemeCount * 2))) r)
    else Tally.suggest "Define security schemes in components.securitySchemes" r in
  if match Document.security document with
     | Some requirements => (0 <? List.length requirements)%nat
     | None => false
     end
  then Tally.finding "Global security requirements defined" (Tally.award (of_nat 3) r)
  else r.

Definition security_tally (document : Document.t) : Tally.t :=
  let r := schemes_tally document in
  let '(operationsWithSecurity, totalOperations) :=
    match Document.paths document with
    | Some paths => count_security paths
    | None => (0%nat, 0%nat)
    end in
  let r :=
    if (0 <? totalOperations)%nat && (0 <? operationsWithSecurity)%nat then
      Tally.finding
        (string_of_nat operationsWithSecurity ++ "/" ++ string_of_nat totalOperations
         ++ " operations have specific security requirements")
        (Tally.award (operation_security_term operationsWithSecurity totalOperations) r)
    else r in
  if eqb (Tally.score r) (of_nat 0) then
    Tally.suggest "Consider API keys, OAuth2, or JWT tokens"
      (Tally.suggest "Implement authentication and authorization schemes" r)
  else r.

Definition scoreSecurity (document : Document.t) : CriteriaScore :=
  Tally.result "Security" (of_nat 10) (security_tally document).

(** *** Best Practices *)

(** The operations loop: [(operationsWithTags, totalOperations)]. *)
Definition count_tags (paths : Dict.t (option PathItem.t)) : nat * nat :=
  forEachOperation scored_methods paths (0%nat, 0%nat)
    (fun '(operationsWithTags, totalOperations) operation =>
       (if match Operation.tags operation with
           | Some tags => (0 <? List.length tags)%nat
           | None => false
           end
        then S operationsWithTags else operationsWithTags,
        S totalOperations)).

Definition componentTypes : list string :=
  ["schemas"; "responses"; "parameters"; "examples"; "requestBodies"; "headers"].

(** [componentTypes.filter((type) => components[type] &&
    Object.keys(components[type] || {}).length > 0)], with
    [components = document.components || {}]. *)
Definition componentsWithContent (document : Document.t) : list string :=
  filter (fun type =>
            match Document.components document with
            | Some components =>
                match Components.category_size components type with
                | Some n => (0 <? n)%nat
                | None => false
                end
            | None => false
            end)
    componentTypes.

Definition bestPractices_tally (document : Document.t) : Tally.t :=
  let maxScore := of_nat 10 in
  let r := Tally.start in
  let r :=
    match Document.servers document with
    | Some ((_ :: _) as servers) =>
        Tally.finding (string_of_nat (List.length servers) ++ " server(s) defined")
          (Tally.award (of_nat 2) r)
    | _ => Tally.suggest "Define servers array with API base URLs" r
    end in
  let version := Info.version (Document.info document) in
  let r :=
    if negb (String.eqb version "") && negb (String.eqb version "1.0.0") then
      Tally.finding ("API version: " ++ version) (Tally.award (of_nat 2) r)
    else r in
  let '(operationsWithTags, totalOperations) :=
    match Document.paths document with
    | Some paths => count_tags paths
    | None => (0%nat, 0%nat)
    end in
  let r :=
    if (0 <? totalOperations)%nat then
      Tally.finding
        (string_of_nat operationsWithTags ++ "/" ++ string_of_nat totalOperations
         ++ " operations have tags")
        (Tally.award (share operationsWithTags totalOperations 3) r)
    else r in
  let withContent := componentsWithContent document in
  let r :=
    if (1 <? List.length withContent)%nat then
      Tally.finding
        ("Uses " ++ string_of_nat (List.length withContent)
         ++ " component types for reusability")
        (Tally.award (of_nat 2) r)
    else r in
  let r :=
    if present (Document.externalDocs document) then
      Tally.finding "External documentation referenced" (Tally.award (of_nat 1) r)
    else r in
  if ltb (Tally.score r) (fraction_of maxScore (4 # 10)) then
    Tally.suggest "Define multiple servers for different environments"
      (Tally.suggest "Use components for reusable elements"
         (Tally.suggest "Add tags to organize operations" r))
  else r.

Definition scoreBestPractices (document : Document.t) : CriteriaScore :=
  Tally.result "Best Practices" (of_nat 10) (bestPractices_tally document).

End Evaluators.

(** ** The aggregator ([src/lib/reporter.ts])

    The repository holds two revisions of the reporter.  They share
    [scoreSpec] and [calculateGrade] and differ in the cut-offs of
    [generateOverallFeedback]: the console-only revision uses 90/80/70/60 for
    the narrative line and 60 for weak areas, the revision that also writes
    Markdown and HTML reports uses 80/70/60/50 and 50. *)

Record ScoringResult : Type := mkScoringResult {
  totalScore : JS.number;
  grade : string;
  criteria : list CriteriaScore;
  overallFeedback : list string;
  document : Document.t
}.

Module Reporter.

Import JS.

(** [calculateGrade] *)
Definition calculateGrade (score : number) : string :=
  if geb score (of_nat 80) then "A"
  else if geb score (of_nat 70) then "B"
  else if geb score (of_nat 60) then "C"
  else if geb score (of_nat 50) then "D"
  else "F".

(** [Array.prototype.sort] with the comparator
    [(a, b) => a.percentage - b.percentage]: the sort is stable, and [b] goes
    before [a] exactly when the comparator is positive. *)
Fixpoint insert_by_percentage (a : CriteriaScore) (l : list CriteriaScore)
    : list CriteriaScore :=
  match l with
  | [] => [a]
  | b :: l' =>
      if gtb (sub (percentage a) (percentage b)) (of_nat 0)
      then b :: insert_by_percentage a l'
      else a :: b :: l'
  end.

Definition sort_by_percentage (l : list CriteriaScore) : list CriteriaScore :=
  fold_right insert_by_percentage [] l.

(** [criteria.filter((c) => c.percentage < cutoff).sort(...).slice(0, 3)] *)
Definition weakAreas (cutoff : nat) (criteria : list CriteriaScore) : list CriteriaScore :=
  firstn 3
    (sort_by_percentage (filter (fun c => ltb (percentage c) (of_nat cutoff)) criteria)).

(** [`Focus on improving: ${weakAreas.map((area) => area.name).join(', ')}`] *)
Definition weak_line (weak : list CriteriaScore) : string :=
  "Focus on improving: " ++ String.concat ", " (map name weak).

Definition excellent : string :=
  "Excellent! Your OpenAPI specification follows industry best practices.".
Definition good : string :=
  "Good job! Your API specification is well-structured with minor areas for improvement.".
Definition decent : string :=
  "Your API specification is decent but has several areas that could be improved.".
Definition significant : string :=
  "Your API specification needs significant improvements to meet best practices.".
Definition major : string :=
  "Your API specification requires major improvements across multiple areas.".

(** [generateOverallFeedback] of the console-only revision. *)
Definition generateOverallFeedback_console (totalScore : number)
    (criteria : list CriteriaScore) : list string :=
  let feedback :=
    if geb totalScore (of_nat 90) then [excellent]
    else if geb totalScore (of_nat 80) then [good]
    else if geb totalScore (of_nat 70) then [decent]
    else if geb totalScore (of_nat 60) then [significant]
    else [major] in
  let weak := weakAreas 60 criteria in
  if (0 <? List.length weak)%nat then feedback ++ [weak_line weak] else feedback.

(** [generateOverallFeedback] of the revision with Markdown and HTML reports. *)
Definition generateOverallFeedback (totalScore : number)
    (criteria : list CriteriaScore) : list string :=
  let feedback :=
    if geb totalScore (of_nat 80) then [excellent]
    else if geb totalScore (of_nat 70) then [good]
    else if geb totalScore (of_nat 60) then [decent]
    else if geb totalScore (of_nat 50) then [significant]
    else [major] in
  let weak := weakAreas 50 criteria in
  if (0 <? List.length weak)%nat then feedback ++ [weak_line weak] else feedback.

(** The seven evaluators, in the order [scoreSpec] calls them. *)
Definition evaluate (document : Document.t) : list CriteriaScore :=
  [ Evaluators.scoreSchemaAndTypes document;
    Evaluators.scoreDescriptions document;
    Evaluators.scorePathsAndOperations document;
    Evaluators.scoreResponseCodes document;
    Evaluators.scoreExamples document;
    Evaluators.scoreSecurity document;
    Evaluators.scoreBestPractices document ].

(** [criteria.reduce((sum, criteria) => sum + criteria.score, 0)] *)
Definition total (criteria : list CriteriaScore) : number :=
  fold_left (fun sum criteria => add sum (score criteria)) criteria (of_nat 0).

(** [scoreSpec] once the document is parsed (parsing, progress messages and
    delays are outside the computation). *)
Definition scoreSpec (document : Document.t) : ScoringResult :=
  let criteria := evaluate document in
  let totalScore := total criteria in
  mkScoringResult totalScore (calculateGrade totalScore) criteria
    (generateOverallFeedback totalScore criteria) document.

(** [scoreSpec] of the console-only revision. *)
Definition scoreSpec_console (document : Document.t) : ScoringResult :=
  let criteria := evaluate document in
  let totalScore := total criteria in
  mkScoringResult totalScore (calculateGrade totalScore) criteria
    (generateOverallFeedback_console totalScore criteria) document.

End Reporter.

(** * Properties

    Definitions used to state them. *)

Module Spec.

Import JS Evaluators.

(** [x] is a finite number between [lo] and [hi]. *)
Definition within (lo hi : Q) (x : number) : Prop :=
  match x with
  | Num q => lo <= q /\ q <= hi
  | NaN => False
  end.

(** Counters that never exceed the totals they are compared with. *)
Definition counts_consistent (c : DescriptionCounts) : Prop :=
  (operationsWithDescriptions c <= totalOperations c)%nat
  /\ (parametersWithDescriptions c <= totalParameters c)%nat
  /\ (responsesWithDescriptions c <= totalResponses c)%nat.

Definition responses_consistent (c : ResponseCounts) : Prop :=
  (operationsWithSuccess c <= responseOperations c)%nat
  /\ (operationsWithErrors c <= responseOperations c)%nat
  /\ (operationsWithMultipleResponses c <= responseOperations c)%nat.

Definition examples_consistent (c : ExampleCounts) : Prop :=
  (operationsWithRequestExamples c <= totalOperationsWithBodies c)%nat
  /\ (operationsWithResponseExamples c <= exampleResponses c)%nat.

(** A criterion result out of [max]: an integral score of [[0, max]] and an
    integral percentage of [[0, 100]]. *)
Definition well_scored (max : Z) (c : CriteriaScore) : Prop :=
  maxScore c = of_Z max
  /\ (exists z, score c = of_Z z /\ (0 <= z <= max)%Z)
  /\ (exists p, percentage c = of_Z p /\ (0 <= p <= 100)%Z).

(** [x] is a finite number with an integral value. *)
Definition integral (x : number) : Prop :=
  match x with
  | Num q => exists z, q == inject_Z z
  | NaN => False
  end.

(** The fixed maxima, in the order of [Reporter.evaluate]. *)
Definition maxima : list Z := [20; 20; 15; 15; 10; 10; 10]%Z.

(** The value of the local [score] of each evaluator when it returns, in the
    order of [Reporter.evaluate]. *)
Definition unrounded (document : Document.t) : list number :=
  let guarded (tally : Dict.t (option PathItem.t) -> Tally.t) :=
    match Document.paths document with
    | Some document_paths => Tally.score (tally document_paths)
    | None => of_nat 0
    end in
  [ Tally.score (schemaAndTypes_tally document);
    Tally.score (descriptions_tally document);
    guarded pathsAndOperations_tally;
    guarded responseCodes_tally;
    guarded examples_tally;
    Tally.score (security_tally document);
    Tally.score (bestPractices_tally document) ].

(** A bound, far above what it has to cover, on the error that binary64
    arithmetic makes on an unrounded score or percentage: 2^-30. *)
Definition tolerance : Q := 1 # 1073741824.

(** [x] is the number [q], up to the tolerance. *)
Definition near (x : number) (q : Q) : Prop :=
  within (q - tolerance) (q + tolerance) x.

(** The integer [z] is [q] rounded to a nearest integer, up to the tolerance. *)
Definition rounds (z : Z) (q : Q) : Prop :=
  q - (1 # 2) - tolerance <= inject_Z z /\ inject_Z z <= q + (1 # 2) + tolerance.

(** A result out of [max] and the unrounded score [raw] it was built from:
    the [score] field is [raw] rounded, an integer of [[0, max]]; the
    [percentage] is [100 * raw / max] rounded, an integer of [[0, 100]]. *)
Definition tracks (max : Z) (raw : number) (c : CriteriaScore) : Prop :=
  exists q s p,
    raw = Num q /\ 0 <= q /\ q <= inject_Z max
    /\ score c = of_Z s /\ (0 <= s <= max)%Z /\ rounds s q
    /\ percentage c = of_Z p /\ (0 <= p <= 100)%Z
    /\ rounds p (100 * q / inject_Z max).

(** A maximum paired with an unrounded score, against a result. *)
Definition tracks_pair (expected : Z * number) (c : CriteriaScore) : Prop :=
  tracks (fst expected) (snd expected) c.

(** The score of Schema & Types after its first two steps: 5 for having a
    schema, then the properly-typed term. *)
Definition schema_steps (schemaCount properlyTyped : nat) : number :=
  let r := of_nat 0 in
  let r := if (0 <? schemaCount)%nat then add r (of_nat 5) else r in
  if (0 <? properlyTyped)%nat
  then add r (properly_typed_term properlyTyped schemaCount)
  else r.

(** The schema-usage step of Schema & Types applied to the score [r]. *)
Definition with_schema_usage (document : Document.t) (r : number) : number :=
  let '(operationsWithSchemas, totalOperations) :=
    match Document.paths document with
    | Some paths => count_schema_usage paths
    | None => (0%nat, 0%nat)
    end in
  if (0 <? totalOperations)%nat
  then add r (schema_usage_term operationsWithSchemas totalOperations)
  else r.

(** The paths mapping is absent, or present with at least one path. *)
Definition paths_absent_or_inhabited (document : Document.t) : Prop :=
  Document.paths document <> Some [].

(** The percentage as the specification words it: from the result's own
    (rounded) [score] field. *)
Definition percentage_of_score_field (c : CriteriaScore) : number :=
  round (mul (div (score c) (maxScore c)) (of_nat 100)).

(** Grades in increasing order of merit. *)
Definition grade_rank (g : string) : nat :=
  if String.eqb g "A" then 4
  else if String.eqb g "B" then 3
  else if String.eqb g "C" then 2
  else if String.eqb g "D" then 1
  else 0.

(** [c] is a weak area for the given cut-off. *)
Definition below (cutoff : nat) (c : CriteriaScore) : bool :=
  ltb (percentage c) (of_nat cutoff).

(** [a] has a percentage at most that of [b] (both finite). *)
Definition percentage_le (a b : CriteriaScore) : Prop :=
  match percentage a, percentage b with
  | Num p, Num q => p <= q
  | _, _ => False
  end.

(** The percentage of [c] is a finite number. *)
Definition finite (c : CriteriaScore) : Prop := exists p, percentage c = Num p.

(** What the specification says of the overall feedback, for a weak-area
    cut-off and a feedback generator: no weak-area line when no criterion is
    below the cut-off; otherwise the narrative line and exactly one weak-area
    line, which names the first [min 3 n] of the [n] weak criteria in
    ascending order of percentage, joined by a comma. *)
Definition weak_area_report (cutoff : nat)
    (generate : number -> list CriteriaScore -> list string) : Prop :=
  forall (totalScore : number) (criteria : list CriteriaScore),
    let weak_criteria := filter (below cutoff) criteria in
    (weak_criteria = [] -> exists line, generate totalScore criteria = [line])
    /\ (weak_criteria <> [] ->
        exists line named rest,
          generate totalScore criteria
          = [line; Reporter.weak_line named]
          /\ Permutation (named ++ rest) weak_criteria
          /\ StronglySorted percentage_le (named ++ rest)
          /\ List.length named = Nat.min 3 (List.length weak_criteria)).

(** Seven criterion results with the given percentages. *)
Definition criteria_with (percentages : list nat) : list CriteriaScore :=
  map (fun '(name, p) => mkCriteriaScore name (of_nat 0) (of_nat 10) (of_nat p) [] [])
    (combine
       [ "Schema & Types"; "Descriptions & Documentation"; "Paths & Operations";
         "Response Codes"; "Examples & Samples"; "Security"; "Best Practices" ]
       percentages).

(** "Properly typed", as the evaluator tests it and as the specification
    words it. *)
Definition properly_typed (s : Schema.t) : bool :=
  Schema.type_is_object s && Schema.properties_truthy s.

Definition properly_typed_nonempty (s : Schema.t) : bool :=
  match s with
  | Schema.Object (Some type) (Some (_ :: _)) _ => String.eqb type "object"
  | _ => false
  end.

(** The path has a path item with at least one of the scored methods. *)
Definition has_scored_method (document_paths : Dict.t (option PathItem.t))
    (path : string) : bool :=
  match Dict.lookup path document_paths with
  | Some (Some pathItem) => (0 <? List.length (methods_of pathItem))%nat
  | _ => false
  end.

(** The normalised patterns of the paths that have a scored method, and of
    all paths. *)
Definition scored_patterns (document_paths : Dict.t (option PathItem.t)) : list string :=
  map normalizedPath (filter (has_scored_method document_paths) (Dict.keys document_paths)).

Definition all_patterns (document_paths : Dict.t (option PathItem.t)) : list string :=
  map normalizedPath (Dict.keys document_paths).

Definition distinct (patterns : list string) : nat :=
  List.length (nodup string_dec patterns).

(** The operations the loop over [methods] visits, in order. *)
Definition operations_of (methods : list string) (paths : Dict.t (option PathItem.t))
    : list Operation.t :=
  flat_map
    (fun pathItem =>
       match pathItem with
       | Some pathItem =>
           flat_map
             (fun method =>
                match PathItem.method pathItem method with
                | Some operation => [operation]
                | None => []
                end)
             methods
       | None => []
       end)
    (Dict.values paths).

Definition has_security (operation : Operation.t) : bool :=
  present (Operation.security operation).

End Spec.

(** ** Sample documents *)

Module Samples.

(** An operation whose only response is ["200"], with a description. *)
Definition plain_operation (description : string) : Operation.t :=
  Operation.mk None None None None [("200", Response.Object description None)] None.

Definition only_get (operation : Operation.t) : PathItem.t :=
  PathItem.mk None (Some operation) None None None None None None None.

Definition only_head (operation : Operation.t) : PathItem.t :=
  PathItem.mk None None None None None None (Some operation) None None.

Definition document_with (paths : option (Dict.t (option PathItem.t)))
    (components : option Components.t) : Document.t :=
  Document.mk "3.0.3" (Info.mk "Sample API" "1.0.0" None) None paths components None None.

(** The minimal document of the end-to-end test: one path [/test] with a
    [get] whose only response is ["200"]. *)
Definition minimal (openapi description : string) : Document.t :=
  Document.mk openapi (Info.mk "Minimal API" "1.0.0" None) None
    (Some [("/test", Some (only_get (plain_operation description)))])
    None None None.

(** [paths: {}] *)
Definition empty_paths : Document.t := document_with (Some []) None.

(** No [paths] at all. *)
Definition no_paths : Document.t := document_with None None.

Definition schemas_only (schemas : Dict.t Schema.t) : Components.t :=
  Components.mk (Some schemas) None None None None None None.

Definition string_schema : Schema.t := Schema.Object (Some "string") None None.

Definition pet_schema : Schema.t :=
  Schema.Object (Some "object") (Some [("name", string_schema)]) None.

(** Four named schemas, one of them an object with properties, and one
    operation. *)
Definition one_in_four : Document.t :=
  document_with
    (Some [("/pets", Some (only_get (plain_operation "A list of pets")))])
    (Some (schemas_only
             [("Pet", pet_schema); ("Id", string_schema);
              ("Name", string_schema); ("Tag", string_schema)])).

(** An object schema whose [properties] is the empty map. *)
Definition bare_object : Schema.t := Schema.Object (Some "object") (Some []) None.

Definition bare_object_document : Document.t :=
  document_with
    (Some [("/test", Some (only_get (plain_operation "Success")))])
    (Some (schemas_only [("Anything", bare_object)])).

(** One path whose only operation is a [head]. *)
Definition head_only_paths : Dict.t (option PathItem.t) :=
  [("/health", Some (only_head (plain_operation "Alive")))].

(** An operation with the per-operation override [security: []]. *)
Definition public_operation : Operation.t :=
  Operation.mk None None None None [("200", Response.Object "Success" None)] (Some []).

Definition public_document : Document.t :=
  document_with (Some [("/status", Some (only_get public_operation))]) None.

(** Two operations, one of them with the override [security: []]. *)
Definition half_public_paths : Dict.t (option PathItem.t) :=
  [ ("/status", Some (only_get public_operation));
    ("/pets", Some (only_get (plain_operation "A list of pets"))) ].

Definition half_public_document : Document.t :=
  document_with (Some half_public_paths) None.

(** A request body offered in three media types, each with a schema. *)
Definition typed (schema : Schema.t) : MediaType.t := MediaType.mk (Some schema) None None.

Definition three_media_types : Operation.t :=
  Operation.mk None None None
    (Some (RequestBody.Object
             [("application/json", typed pet_schema);
              ("application/xml", typed pet_schema);
              ("text/plain", typed string_schema)]))
    [("201", Response.Object "Created" None)] None.

Definition three_media_paths : Dict.t (option PathItem.t) :=
  [("/pets",
    Some (PathItem.mk None None None (Some three_media_types) None None None None None))].

(** A well-documented single-operation API: every criterion reaches 50%,
    Examples & Samples and Security exactly 50%. *)
Definition documented_operation : Operation.t :=
  Operation.mk (Some "List all pets") (Some ["pets"]) None None
    [ ("200",
       Response.Object "A list of pets"
         (Some [("application/json",
                 MediaType.mk (Some (Schema.Ref "#/components/schemas/Pet"))
                   (Some (JS.Arr [])) None)]));
      ("404", Response.Object "No pets" None) ]
    None.

Definition documented : Document.t :=
  Document.mk "3.0.3"
    (Info.mk "Pet Store API" "2.0.0" (Some "A well described pet store"))
    (Some ["https://api.example.com"])
    (Some [("/pets", Some (only_get documented_operation))])
    (Some (Components.mk (Some [("Pet", pet_schema)]) None None None None None
             (Some [("apiKey", JS.Obj [("type", JS.Str "apiKey")])])))
    (Some [[("apiKey", [])]])
    None.

End Samples.

(** ** The validator's own checks ([src/lib/validator.ts]) *)

Module Validator.

Import JS.

(** [ValidationResult['stats']] *)
Record Stats : Type := mkStats {
  paths : nat;
  operations : nat;
  schemas : nat;
  parameters : nat
}.

(** The method list of [calculateStats]. *)
Definition methods : list string :=
  ["get"; "post"; "put"; "delete"; "patch"; "head"; "options"; "trace"].

(** The loop of [calculateStats] over the path items: [operations]. *)
Definition count_operations (document_paths : Dict.t (option PathItem.t)) : nat :=
  forEach (Dict.values document_paths) 0%nat (fun operations pathItem =>
    match pathItem with
    | Some pathItem =>
        forEach methods operations (fun operations method =>
          if present (PathItem.method pathItem method) then S operations
          else operations)
    | None => operations
    end).

(** [calculateStats] *)
Definition calculateStats (document : Document.t) : Stats :=
  let '(paths, operations) :=
    match Document.paths document with
    | Some document_paths =>
        (List.length (Dict.keys document_paths), count_operations document_paths)
    | None => (0%nat, 0%nat)
    end in
  let schemas :=
    match Document.components document with
    | Some components =>
        match Components.schemas components with
        | Some schemas => List.length (Dict.keys schemas)
        | None => 0%nat
        end
    | None => 0%nat
    end in
  let parameters :=
    match Document.components document with
    | Some components =>
        match Components.parameters components with
        | Some parameters => List.length (Dict.keys parameters)
        | None => 0%nat
        end
    | None => 0%nat
    end in
  mkStats paths operations schemas parameters.

(** [Object.values(pathItem)], kept to the values that are objects with a
    [responses] field: the operations of the path item. *)
Definition operation_values (pathItem : PathItem.t) : list Operation.t :=
  flat_map
    (fun key =>
       match PathItem.method pathItem key with
       | Some operation => [operation]
       | None => []
       end)
    (PathItem.keys pathItem).

(** The loop of [performAdditionalValidation]: [missingExamples]. *)
Definition count_missing_examples (document_paths : Dict.t (option PathItem.t)) : nat :=
  forEach (Dict.values document_paths) 0%nat (fun missingExamples pathItem =>
    match pathItem with
    | Some pathItem =>
        forEach (operation_values pathItem) missingExamples
          (fun missingExamples operation =>
             forEach (Dict.values (Operation.responses operation)) missingExamples
               (fun missingExamples response =>
                  match response with
                  | Response.Object _ (Some content) =>
                      forEach (Dict.values content) missingExamples
                        (fun missingExamples mediaType =>
                           if negb (MediaType.has_example mediaType)
                           then S missingExamples else missingExamples)
                  | _ => missingExamples
                  end))
    | None => missingExamples
    end).

(** [performAdditionalValidation]: the warnings, in the order pushed. *)
Definition performAdditionalValidation (document : Document.t) : list string :=
  let warnings := [] in
  let warnings :=
    if match Document.paths document with
       | Some document_paths => (List.length (Dict.keys document_paths) =? 0)%nat
       | None => true
       end
    then warnings ++ ["No paths defined in the specification"]
    else warnings in
  let warnings :=
    if negb (truthy_string (Info.description (Document.info document)))
    then warnings ++ ["API description is missing from info object"]
    else warnings in
  let missingExamples :=
    match Document.paths document with
    | Some document_paths => count_missing_examples document_paths
    | None => 0%nat
    end in
  let warnings :=
    if (0 <? missingExamples)%nat
    then warnings ++ [(string_of_nat missingExamples ++ " response(s) missing examples")%string]
    else warnings in
  let warnings :=
    if negb (match Document.components document with
             | Some components => present (Components.securitySchemes components)
             | None => false
             end)
       && negb (present (Document.security document))
    then warnings ++ ["No security schemes defined"]
    else warnings in
  if Str.startsWith "3.0" (Document.openapi document)
  then warnings
       ++ ["Consider upgrading to OpenAPI 3.1.0 for improved JSON Schema support"]
  else warnings.

End Validator.

(** ** Further definitions used in statements *)

Module Spec2.

Import JS Spec Evaluators.

(** The characters of [[a-z0-9-]]. *)
Definition kebab_char (c : ascii) : bool :=
  Str.between "a" "z" c || Str.between "0" "9" c || Ascii.eqb c "-".

(** No opening brace, no closing brace in [s]. *)
Definition no_open_brace (s : string) : bool :=
  Str.forallc (fun c => negb (Ascii.eqb c "{")) s.

Definition no_close_brace (s : string) : bool :=
  Str.forallc (fun c => negb (Ascii.eqb c "}")) s.

(** The operation declares a [2xx] response and a [4xx] or [5xx] one. *)
Definition has_success_and_error (operation : Operation.t) : bool :=
  existsb (Str.startsWith "2") (Dict.keys (Operation.responses operation))
  && existsb (fun code => Str.startsWith "4" code || Str.startsWith "5" code)
       (Dict.keys (Operation.responses operation)).

(** The operation has an inline request body. *)
Definition has_body (operation : Operation.t) : bool :=
  match Operation.requestBody operation with
  | Some (RequestBody.Object _) => true
  | _ => false
  end.

(** Nothing about security is declared: no scheme, no global requirement,
    no per-operation [security] field. *)
Definition nothing_declared (document : Document.t) : Prop :=
  securitySchemes document = []
  /\ (Document.security document = None \/ Document.security document = Some [])
  /\ forall paths, Document.paths document = Some paths ->
       filter has_security (operations_of scored_methods paths) = [].

(** [document.security && document.security.length > 0] *)
Definition global_requirements (document : Document.t) : bool :=
  match Document.security document with
  | Some requirements => (0 <? List.length requirements)%nat
  | None => false
  end.

(** The narrative line that goes with a grade. *)
Definition narrative_for (grade : string) : string :=
  if String.eqb grade "A" then Reporter.excellent
  else if String.eqb grade "B" then Reporter.good
  else if String.eqb grade "C" then Reporter.decent
  else if String.eqb grade "D" then Reporter.significant
  else Reporter.major.

(** [score c] is an integer of at most [bound]. *)
Definition scores_at_most (bound : Z) (c : CriteriaScore) : Prop :=
  exists z, score c = of_Z z /\ (0 <= z <= bound)%Z.

End Spec2.

Module Samples2.

(** Two paths that differ only in the name of their parameter. *)
Definition same_pattern_paths : Dict.t (option PathItem.t) :=
  [ ("/pets/{id}", Some (Samples.only_get (Samples.plain_operation "One pet")));
    ("/pets/{petId}", Some (Samples.only_get (Samples.plain_operation "One pet"))) ].

(** An operation with a success and an error response. *)
Definition careful_operation : Operation.t :=
  Operation.mk None None None None
    [ ("200", Response.Object "Found" None);
      ("404", Response.Object "Not found" None) ]
    None.

Definition careful_document : Document.t :=
  Samples.document_with
    (Some [("/pets", Some (Samples.only_get careful_operation))]) None.

(** One operation out of five carries a [security] field. *)
Definition mostly_open_paths : Dict.t (option PathItem.t) :=
  [ ("/a", Some (Samples.only_get Samples.public_operation));
    ("/b", Some (Samples.only_get (Samples.plain_operation "b")));
    ("/c", Some (Samples.only_get (Samples.plain_operation "c")));
    ("/d", Some (Samples.only_get (Samples.plain_operation "d")));
    ("/e", Some (Samples.only_get (Samples.plain_operation "e"))) ].

End Samples2.
(** ** Numbers *)

Module JSFacts.

Import JS Spec.

Lemma within_weaken (lo hi lo' hi' : Q) (x : number) :
  within lo hi x -> lo' <= lo -> hi <= hi' -> within lo' hi' x.
Proof.
  destruct x as [q|]; simpl; [|tauto].
  intros [H1 H2] H3 H4. split; lra.
Qed.

Lemma within_add (a b c d : Q) (x y : number) :
  within a b x -> within c d y -> within (a + c) (b + d) (add x y).
Proof.
  destruct x as [p|], y as [q|]; simpl; try tauto.
  intros [? ?] [? ?]. split; lra.
Qed.

Lemma within_of_nat (n : nat) :
  within (inject_Z (Z.of_nat n)) (inject_Z (Z.of_nat n)) (of_nat n).
Proof. simpl. split; lra. Qed.

Lemma within_min_l (k : nat) (lo hi : Q) (x : number) :
  within lo hi x -> 0 <= lo -> within 0 (inject_Z (Z.of_nat k)) (min (of_nat k) x).
Proof.
  destruct x as [q|]; simpl; [|tauto].
  intros [H1 H2] H0.
  assert (Hk : 0 <= inject_Z (Z.of_nat k)).
  { change 0 with (inject_Z 0). rewrite <- Zle_Qle. lia. }
  destruct (Qle_bool (inject_Z (Z.of_nat k)) q) eqn:E.
  - split; lra.
  - assert (~ inject_Z (Z.of_nat k) <= q).
    { intro H. apply Qle_bool_iff in H. congruence. }
    split; lra.
Qed.

Lemma inject_nat_pos (n : nat) : (0 < n)%nat -> 0 < inject_Z (Z.of_nat n).
Proof.
  intro H. change 0 with (inject_Z 0). rewrite <- Zlt_Qlt. lia.
Qed.

Lemma inject_nat_nonneg (n : nat) : 0 <= inject_Z (Z.of_nat n).
Proof.
  change 0 with (inject_Z 0). rewrite <- Zle_Qle. lia.
Qed.

Lemma inject_nat_le (a b : nat) :
  (a <= b)%nat -> inject_Z (Z.of_nat a) <= inject_Z (Z.of_nat b).
Proof. intro H. rewrite <- Zle_Qle. lia. Qed.

(** A quotient of two counters with a non-zero divisor is a number. *)
Lemma div_counts (a b : nat) :
  (0 < b)%nat ->
  div (of_nat a) (of_nat b) = Num (inject_Z (Z.of_nat a) / inject_Z (Z.of_nat b)).
Proof.
  intro Hb. unfold div, of_nat, of_Z.
  destruct (Qeq_bool (inject_Z (Z.of_nat b)) 0) eqn:E; [|reflexivity].
  apply Qeq_bool_eq in E. pose proof (inject_nat_pos b Hb). lra.
Qed.

Lemma ratio_nonneg (a b : nat) :
  (0 < b)%nat -> 0 <= inject_Z (Z.of_nat a) / inject_Z (Z.of_nat b).
Proof.
  intro Hb. apply Qle_shift_div_l.
  - now apply inject_nat_pos.
  - pose proof (inject_nat_nonneg a). lra.
Qed.

Lemma ratio_le_1 (a b : nat) :
  (a <= b)%nat -> (0 < b)%nat -> inject_Z (Z.of_nat a) / inject_Z (Z.of_nat b) <= 1.
Proof.
  intros Hab Hb. apply Qle_shift_div_r.
  - now apply inject_nat_pos.
  - pose proof (inject_nat_le a b Hab). lra.
Qed.

(** A share [(a / b) * k] of a counter in its total lies between 0 and [k]. *)
Lemma share_within (a b k : nat) :
  (a <= b)%nat -> (0 < b)%nat ->
  within 0 (inject_Z (Z.of_nat k)) (Evaluators.share a b k).
Proof.
  intros Hab Hb. unfold Evaluators.share. rewrite (div_counts a b Hb). simpl.
  pose proof (ratio_nonneg a b Hb) as H0.
  pose proof (ratio_le_1 a b Hab Hb) as H1.
  pose proof (inject_nat_nonneg k) as Hk.
  split; nra.
Qed.

(** With no hypothesis relating the counters the share is still a
    non-negative number. *)
Lemma share_nonneg (a b k : nat) :
  (0 < b)%nat ->
  exists q, Evaluators.share a b k = Num q /\ 0 <= q.
Proof.
  intro Hb. unfold Evaluators.share. rewrite (div_counts a b Hb). simpl.
  eexists; split; [reflexivity|].
  pose proof (ratio_nonneg a b Hb). pose proof (inject_nat_nonneg k). nra.
Qed.

(** Rounding a number of [[0, m]] gives an integer of [[0, m]]. *)
(** The value of [(a / b) * k], up to the way the product is written. *)
Lemma share_near (a b k : nat) :
  (0 < b)%nat ->
  near (Evaluators.share a b k)
    (inject_Z (Z.of_nat k) * inject_Z (Z.of_nat a) / inject_Z (Z.of_nat b)).
Proof.
  intro Hb. unfold Evaluators.share. rewrite (div_counts a b Hb).
  cbn [mul of_nat of_Z]. unfold near, within, tolerance.
  pose proof (inject_nat_pos b Hb) as Hpos.
  assert (Heq : inject_Z (Z.of_nat k) * inject_Z (Z.of_nat a) / inject_Z (Z.of_nat b)
                == inject_Z (Z.of_nat a) / inject_Z (Z.of_nat b) * inject_Z (Z.of_nat k))
    by (field; lra).
  rewrite Heq. split; lra.
Qed.

Lemma round_within (m : Z) (x : number) :
  within 0 (inject_Z m) x ->
  exists z, round x = of_Z z /\ (0 <= z <= m)%Z.
Proof.
  destruct x as [q|]; simpl; [|tauto].
  intros [H0 Hm]. exists (Qfloor (q + (1 # 2))). split; [reflexivity|].
  split.
  - apply (Qfloor_resp_le 0 (q + (1 # 2))). lra.
  - assert (H : (Qfloor (q + (1 # 2)) < m + 1)%Z).
    { rewrite Zlt_Qlt, inject_Z_plus. change (inject_Z 1) with 1.
      pose proof (Qfloor_le (q + (1 # 2))). lra. }
    lia.
Qed.

(** The percentage of a score of [[0, max]]. *)
Lemma percentage_within (m : nat) (x : number) :
  (0 < m)%nat ->
  within 0 (inject_Z (Z.of_nat m)) x ->
  within 0 100 (mul (div x (of_nat m)) (of_nat 100)).
Proof.
  intro Hm. destruct x as [q|]; simpl; [|tauto].
  intros [H0 H1].
  pose proof (inject_nat_pos m Hm) as Hp.
  destruct (Qeq_bool (inject_Z (Z.of_nat m)) 0) eqn:E.
  { apply Qeq_bool_eq in E. lra. }
  simpl.
  assert (0 <= q / inject_Z (Z.of_nat m)).
  { apply Qle_shift_div_l; lra. }
  assert (q / inject_Z (Z.of_nat m) <= 1).
  { apply Qle_shift_div_r; lra. }
  set (r := q / inject_Z (Z.of_nat m)) in *.
  change (inject_Z 100) with (100 # 1). split; lra.
Qed.

End JSFacts.

(** ** Loops *)

Module LoopFacts.

Import Evaluators.

Lemma forEach_invariant {A S : Type} (P : S -> Prop) (l : list A)
    (body : S -> A -> S) (s : S) :
  P s -> (forall s x, P s -> P (body s x)) -> P (forEach l s body).
Proof.
  unfold forEach. intros Hs Hbody. revert s Hs.
  induction l as [|x l IH]; simpl; auto.
Qed.

(** A counter that a loop body raises by at most one ends at most the
    length of the list above its start. *)
Lemma forEach_counter {A St : Type} (m : St -> nat) (l : list A)
    (body : St -> A -> St) (s : St) :
  (forall s x, (m (body s x) <= S (m s))%nat) ->
  (m (forEach l s body) <= m s + List.length l)%nat.
Proof.
  unfold forEach. intro Hbody. revert s.
  induction l as [|x l IH]; simpl; intro s; [lia|].
  specialize (IH (body s x)). specialize (Hbody s x). lia.
Qed.

Lemma forEachMethod_invariant {S : Type} (P : S -> Prop) (methods : list string)
    (pathItem : PathItem.t) (body : S -> Operation.t -> S) (s : S) :
  P s -> (forall s operation, P s -> P (body s operation)) ->
  P (forEachMethod methods pathItem s body).
Proof.
  intros Hs Hbody. unfold forEachMethod. apply forEach_invariant; [exact Hs|].
  intros s' method Hs'. destruct (PathItem.method pathItem method); auto.
Qed.

Lemma forEachOperation_invariant {S : Type} (P : S -> Prop) (methods : list string)
    (paths : Dict.t (option PathItem.t)) (body : S -> Operation.t -> S) (s : S) :
  P s -> (forall s operation, P s -> P (body s operation)) ->
  P (forEachOperation methods paths s body).
Proof.
  intros Hs Hbody. unfold forEachOperation. apply forEach_invariant; [exact Hs|].
  intros s' [pathItem|] Hs'; [|exact Hs'].
  now apply forEachMethod_invariant.
Qed.

Lemma keys_length {V : Type} (d : Dict.t V) :
  List.length (Dict.keys d) = List.length d.
Proof. apply length_map. Qed.

Lemma values_length {V : Type} (d : Dict.t V) :
  List.length (Dict.values d) = List.length d.
Proof. apply length_map. Qed.

End LoopFacts.

(** ** Every criterion stays within its maximum *)

Module Bounds.

Import JS Spec JSFacts Evaluators LoopFacts.

Lemma Qle_by_computation (a b : Q) : Qle_bool a b = true -> a <= b.
Proof. apply Qle_bool_imp_le. Qed.

Ltac ltb_facts :=
  repeat match goal with
  | H : (_ <? _)%nat = true |- _ => apply Nat.ltb_lt in H
  | H : (_ <? _)%nat = false |- _ => apply Nat.ltb_ge in H
  | H : (_ && _)%bool = true |- _ => apply andb_prop in H; destruct H
  end.

(** Peel the conditionals of a tally, outermost first. *)
Ltac peel :=
  repeat
    (cbn [Tally.score Tally.suggest Tally.finding Tally.award Tally.start];
     match goal with
     | |- context [Tally.score (if ltb ?a ?b then _ else _)] => destruct (ltb a b)
     | |- context [Tally.score (if eqb ?a ?b then _ else _)] => destruct (eqb a b)
     | |- context [Tally.score (if ?b then _ else _)] => destruct b eqn:?
     | |- context [Tally.score (match ?o with _ => _ end)] => destruct o eqn:?
     end).

Ltac leaf :=
  first
    [ apply within_of_nat
    | apply share_within; ltb_facts; lia
    | eapply within_min_l; [apply within_of_nat | apply inject_nat_nonneg]
    | eassumption ].

(** Bound a fully peeled tally: every awarded term within its own range, the
    ranges summed. *)
Ltac sum_bound :=
  cbn [Tally.score Tally.suggest Tally.finding Tally.award Tally.start];
  eapply within_weaken;
  [ repeat (eapply within_add); leaf
  | apply Qle_by_computation; vm_compute; reflexivity
  | apply Qle_by_computation; vm_compute; reflexivity ].

(** *** Schema & Types *)

Lemma count_schemas_le (schemas : Dict.t Schema.t) :
  (fst (count_schemas schemas) <= List.length (Dict.keys schemas))%nat.
Proof.
  unfold count_schemas. rewrite keys_length, <- (values_length schemas).
  apply (forEach_counter fst (Dict.values schemas) _ (0%nat, 0%nat)).
  intros [properlyTyped freeForm] schema.
  destruct (Schema.has_type schema); simpl; [|lia].
  destruct (Schema.type_is_object schema && Schema.properties_truthy schema);
    simpl; [lia|].
  destruct (Schema.type_is_object schema && negb (Schema.properties_truthy schema)
            && negb (Schema.additionalProperties_truthy schema)); simpl; lia.
Qed.

Lemma properly_typed_term_within (properlyTyped schemaCount : nat) :
  (properlyTyped <= schemaCount)%nat ->
  within 0 10 (properly_typed_term properlyTyped schemaCount).
Proof.
  intro H. unfold properly_typed_term.
  apply (within_min_l 10 0 (inject_Z (Z.of_nat 10))); [|lra].
  apply share_within; lia.
Qed.

Lemma schema_usage_term_within (operationsWithSchemas totalOperations : nat) :
  (0 < totalOperations)%nat ->
  within 0 5 (schema_usage_term operationsWithSchemas totalOperations).
Proof.
  intro H. unfold schema_usage_term, schemaUsageRatio.
  destruct (share_nonneg operationsWithSchemas (totalOperations * 2) 5) as (q & Hq & H0);
    [lia|].
  unfold share in Hq. rewrite Hq.
  apply (within_min_l 5 q q); simpl; lra.
Qed.

Lemma schemaAndTypes_within (document : Document.t) :
  within 0 20 (Tally.score (schemaAndTypes_tally document)).
Proof.
  unfold schemaAndTypes_tally.
  pose proof (count_schemas_le (named_schemas document)) as Hs.
  destruct (count_schemas (named_schemas document)) as [properlyTyped freeForm].
  simpl fst in Hs.
  pose proof (properly_typed_term_within properlyTyped _ Hs) as Hpt.
  set (usage := match Document.paths document with
                | Some paths => count_schema_usage paths
                | None => (0%nat, 0%nat)
                end).
  destruct usage as [operationsWithSchemas totalOperations].
  cbv zeta.
  destruct (0 <? totalOperations)%nat eqn:Hops.
  - pose proof (schema_usage_term_within operationsWithSchemas totalOperations
                  (proj1 (Nat.ltb_lt _ _) Hops)) as Hu.
    peel; sum_bound.
  - peel; sum_bound.
Qed.

(** *** Descriptions & Documentation *)

(** A loop that counts the elements satisfying [p] next to all elements. *)
Lemma tally_pair_le {A : Type} (p : A -> bool) (l : list A) (w t : nat) :
  (w <= t)%nat ->
  (fst (forEach l (w, t) (fun '(w, t) x => (if p x then S w else w, S t)))
   <= snd (forEach l (w, t) (fun '(w, t) x => (if p x then S w else w, S t))))%nat.
Proof.
  intro H.
  apply (forEach_invariant (fun s => (fst s <= snd s)%nat)); [exact H|].
  intros [w' t'] x Hs. simpl in *. destruct (p x); simpl; lia.
Qed.

Lemma describe_operation_consistent (c : DescriptionCounts) (operation : Operation.t) :
  counts_consistent c -> counts_consistent (describe_operation c operation).
Proof.
  intros (Ho & Hp & Hr). unfold describe_operation.
  assert (Hparams :
    let r := match Operation.parameters operation with
             | Some params =>
                 forEach params (parametersWithDescriptions c, totalParameters c)
                   (fun '(withD, total) param =>
                      (if Param.has_description param then S withD else withD, S total))
             | None => (parametersWithDescriptions c, totalParameters c)
             end in (fst r <= snd r)%nat).
  { destruct (Operation.parameters operation); simpl; [|exact Hp].
    now apply tally_pair_le. }
  pose proof (tally_pair_le Response.has_description
                (Dict.values (Operation.responses operation)) _ _ Hr) as Hresp.
  cbv zeta in Hparams.
  destruct (match Operation.parameters operation with
            | Some _ => _
            | None => _
            end) as [pw pt].
  destruct (forEach (Dict.values (Operation.responses operation)) _ _) as [rw rt].
  simpl in *. unfold counts_consistent; simpl.
  destruct (match Operation.description operation with
            | Some _ => _
            | None => _
            end); lia.
Qed.

Lemma describe_operation_paths (c : DescriptionCounts) (operation : Operation.t) :
  pathsWithDescriptions (describe_operation c operation) = pathsWithDescriptions c.
Proof.
  unfold describe_operation.
  destruct (match Operation.parameters operation with
            | Some _ => _
            | None => _
            end) as [pw pt].
  destruct (forEach (Dict.values (Operation.responses operation)) _ _) as [rw rt].
  reflexivity.
Qed.

Lemma count_descriptions_consistent (paths : Dict.t (option PathItem.t)) :
  counts_consistent (count_descriptions paths).
Proof.
  unfold count_descriptions.
  apply (forEach_invariant counts_consistent).
  - unfold counts_consistent; simpl; lia.
  - intros c [pathItem|] Hc; [|exact Hc].
    apply forEachMethod_invariant.
    + destruct (truthy_string (PathItem.description pathItem)); [|exact Hc].
      destruct Hc as (? & ? & ?). unfold counts_consistent; simpl; lia.
    + intros. now apply describe_operation_consistent.
Qed.

Lemma count_descriptions_paths (paths : Dict.t (option PathItem.t)) :
  (pathsWithDescriptions (count_descriptions paths) <= List.length (Dict.keys paths))%nat.
Proof.
  unfold count_descriptions. rewrite keys_length, <- (values_length paths).
  apply (forEach_counter pathsWithDescriptions (Dict.values paths) _
           (mkDescriptionCounts 0 0 0 0 0 0 0)).
  intros c [pathItem|]; [|lia].
  match goal with
  | |- (pathsWithDescriptions (forEachMethod _ _ ?c0 _) <= _)%nat =>
      assert (Hkeep : pathsWithDescriptions
                        (forEachMethod all_methods pathItem c0 describe_operation)
                      = pathsWithDescriptions c0)
  end.
  { apply (forEachMethod_invariant
             (fun s => pathsWithDescriptions s = pathsWithDescriptions _));
      [reflexivity|].
    intros s operation Hs. now rewrite describe_operation_paths. }
  rewrite Hkeep.
  destruct (truthy_string (PathItem.description pathItem)); simpl; lia.
Qed.

Lemma descriptions_within (document : Document.t) :
  within 0 20 (Tally.score (descriptions_tally document)).
Proof.
  unfold descriptions_tally.
  destruct (Document.paths document) as [paths|].
  - destruct (count_descriptions_consistent paths) as (Ho & Hp & Hr).
    pose proof (count_descriptions_paths paths) as Hd.
    cbv zeta beta iota. peel; sum_bound.
  - cbv zeta beta iota. simpl. peel; sum_bound.
Qed.

(** *** Paths & Operations *)

Lemma wellNamed_le_pathCount (document_paths : Dict.t (option PathItem.t)) :
  (wellNamedPaths (count_paths document_paths)
   <= List.length (Dict.keys document_paths))%nat.
Proof.
  unfold count_paths.
  apply (forEach_counter wellNamedPaths (Dict.keys document_paths) _
           (mkPathCounts 0 0 StringSet.empty)).
  intros c path. unfold visit_path.
  destruct (Dict.lookup path document_paths) as [[pathItem|]|]; simpl.
  - destruct (0 <? List.length (methods_of pathItem))%nat; simpl;
      destruct (isWellNamed path); lia.
  - destruct (isWellNamed path); lia.
  - destruct (isWellNamed path); lia.
Qed.

Lemma pathsAndOperations_within (document_paths : Dict.t (option PathItem.t)) :
  document_paths <> [] ->
  within 0 15 (Tally.score (pathsAndOperations_tally document_paths)).
Proof.
  intro Hne. unfold pathsAndOperations_tally, naming_and_crud_tally.
  pose proof (wellNamed_le_pathCount document_paths) as Hw.
  assert (Hpos : (0 < List.length (Dict.keys document_paths))%nat).
  { rewrite keys_length. destruct document_paths; [congruence|simpl; lia]. }
  cbv zeta. peel; sum_bound.
Qed.

(** *** Response Codes *)

Lemma count_responses_consistent (paths : Dict.t (option PathItem.t)) :
  responses_consistent (count_responses paths).
Proof.
  unfold count_responses. apply forEachOperation_invariant.
  - unfold responses_consistent; simpl; lia.
  - intros c operation (H1 & H2 & H3). unfold inspect_responses, responses_consistent.
    simpl.
    repeat match goal with
           | |- context [if ?b then _ else _] => destruct b
           end; lia.
Qed.

Lemma responseCodes_within (document_paths : Dict.t (option PathItem.t)) :
  within 0 15 (Tally.score (responseCodes_tally document_paths)).
Proof.
  unfold responseCodes_tally.
  destruct (count_responses_consistent document_paths) as (H1 & H2 & H3).
  cbv zeta. peel; sum_bound.
Qed.

(** *** Examples & Samples *)

Lemma count_examples_consistent (paths : Dict.t (option PathItem.t)) :
  examples_consistent (count_examples paths).
Proof.
  unfold count_examples. apply forEachOperation_invariant.
  - unfold examples_consistent; simpl; lia.
  - intros c operation Hc. unfold inspect_examples.
    apply (forEach_invariant examples_consistent).
    + destruct (Operation.requestBody operation) as [[ref|content]|]; try exact Hc.
      destruct Hc as [H1 H2]. unfold examples_consistent; simpl.
      destruct (some_example content); lia.
    + intros c' [ref|description [content|]] [H1 H2]; try (split; assumption).
      unfold examples_consistent; simpl. destruct (some_example content); lia.
Qed.

Lemma examples_within (document_paths : Dict.t (option PathItem.t)) :
  within 0 10 (Tally.score (examples_tally document_paths)).
Proof.
  unfold examples_tally.
  destruct (count_examples_consistent document_paths) as (H1 & H2).
  cbv zeta. peel; sum_bound.
Qed.

(** *** Security *)

Lemma count_security_le (paths : Dict.t (option PathItem.t)) :
  (fst (count_security paths) <= snd (count_security paths))%nat.
Proof.
  unfold count_security.
  apply (forEachOperation_invariant (fun s => (fst s <= snd s)%nat)); [simpl; lia|].
  intros [w t] operation H. simpl in *.
  destruct (present (Operation.security operation)); simpl; lia.
Qed.

Lemma security_within (document : Document.t) :
  within 0 10 (Tally.score (security_tally document)).
Proof.
  unfold security_tally, schemes_tally, operation_security_term.
  assert (H : let r := match Document.paths document with
                       | Some paths => count_security paths
                       | None => (0%nat, 0%nat)
                       end in (fst r <= snd r)%nat).
  { destruct (Document.paths document); simpl; [apply count_security_le | lia]. }
  cbv zeta in H.
  destruct (match Document.paths document with
            | Some paths => count_security paths
            | None => (0%nat, 0%nat)
            end) as [operationsWithSecurity totalOperations].
  simpl in H. cbv zeta. peel; sum_bound.
Qed.

(** *** Best Practices *)

Lemma count_tags_le (paths : Dict.t (option PathItem.t)) :
  (fst (count_tags paths) <= snd (count_tags paths))%nat.
Proof.
  unfold count_tags.
  apply (forEachOperation_invariant (fun s => (fst s <= snd s)%nat)); [simpl; lia|].
  intros [w t] operation H. simpl in *.
  destruct (match Operation.tags operation with
            | Some tags => (0 <? List.length tags)%nat
            | None => false
            end); simpl; lia.
Qed.

Lemma bestPractices_within (document : Document.t) :
  within 0 10 (Tally.score (bestPractices_tally document)).
Proof.
  unfold bestPractices_tally.
  assert (H : let r := match Document.paths document with
                       | Some paths => count_tags paths
                       | None => (0%nat, 0%nat)
                       end in (fst r <= snd r)%nat).
  { destruct (Document.paths document); simpl; [apply count_tags_le | lia]. }
  cbv zeta in H.
  destruct (match Document.paths document with
            | Some paths => count_tags paths
            | None => (0%nat, 0%nat)
            end) as [operationsWithTags totalOperations].
  simpl in H. cbv zeta.
  destruct (Document.servers document) as [[|server servers]|]; peel; sum_bound.
Qed.

End Bounds.

(** ** The results of the evaluators *)

Module Results.

Import JS Spec JSFacts Evaluators LoopFacts Bounds.

(** The object built at the end of an evaluator, from a tally within the
    maximum. *)
Lemma result_well_scored (label : string) (m : nat) (r : Tally.t) :
  (0 < m)%nat ->
  within 0 (inject_Z (Z.of_nat m)) (Tally.score r) ->
  well_scored (Z.of_nat m) (Tally.result label (of_nat m) r).
Proof.
  intros Hm Hr. unfold well_scored, Tally.result; simpl.
  split; [reflexivity|]. split.
  - apply round_within. exact Hr.
  - apply (round_within 100). apply percentage_within; assumption.
Qed.

Lemma short_circuit_well_scored (label : string) (m : nat) (fs ss : list string) :
  well_scored (Z.of_nat m) (mkCriteriaScore label (of_nat 0) (of_nat m) (of_nat 0) fs ss).
Proof.
  unfold well_scored; simpl. split; [reflexivity|].
  split; exists 0%Z; (split; [reflexivity|lia]).
Qed.

Lemma scoreSchemaAndTypes_well_scored (document : Document.t) :
  well_scored 20 (scoreSchemaAndTypes document).
Proof.
  apply (result_well_scored _ 20); [lia|]. apply schemaAndTypes_within.
Qed.

Lemma scoreDescriptions_well_scored (document : Document.t) :
  well_scored 20 (scoreDescriptions document).
Proof.
  apply (result_well_scored _ 20); [lia|]. apply descriptions_within.
Qed.

Lemma scorePathsAndOperations_well_scored (document : Document.t) :
  paths_absent_or_inhabited document ->
  well_scored 15 (scorePathsAndOperations document).
Proof.
  unfold paths_absent_or_inhabited, scorePathsAndOperations. intro H.
  destruct (Document.paths document) as [document_paths|].
  - apply (result_well_scored _ 15); [lia|].
    apply pathsAndOperations_within. intros ->. now apply H.
  - apply (short_circuit_well_scored _ 15).
Qed.

Lemma scoreResponseCodes_well_scored (document : Document.t) :
  well_scored 15 (scoreResponseCodes document).
Proof.
  unfold scoreResponseCodes.
  destruct (Document.paths document) as [document_paths|].
  - apply (result_well_scored _ 15); [lia|]. apply responseCodes_within.
  - apply (short_circuit_well_scored _ 15).
Qed.

Lemma scoreExamples_well_scored (document : Document.t) :
  well_scored 10 (scoreExamples document).
Proof.
  unfold scoreExamples.
  destruct (Document.paths document) as [document_paths|].
  - apply (result_well_scored _ 10); [lia|]. apply examples_within.
  - apply (short_circuit_well_scored _ 10).
Qed.

Lemma scoreSecurity_well_scored (document : Document.t) :
  well_scored 10 (scoreSecurity document).
Proof.
  apply (result_well_scored _ 10); [lia|]. apply security_within.
Qed.

Lemma scoreBestPractices_well_scored (document : Document.t) :
  well_scored 10 (scoreBestPractices document).
Proof.
  apply (result_well_scored _ 10); [lia|]. apply bestPractices_within.
Qed.

Lemma evaluate_well_scored (document : Document.t) :
  paths_absent_or_inhabited document ->
  Forall2 well_scored maxima (Reporter.evaluate document).
Proof.
  intro H. unfold maxima, Reporter.evaluate.
  repeat apply Forall2_cons; try apply Forall2_nil.
  - apply scoreSchemaAndTypes_well_scored.
  - apply scoreDescriptions_well_scored.
  - now apply scorePathsAndOperations_well_scored.
  - apply scoreResponseCodes_well_scored.
  - apply scoreExamples_well_scored.
  - apply scoreSecurity_well_scored.
  - apply scoreBestPractices_well_scored.
Qed.

(** The running sum of [Reporter.total] over well-scored results. *)
Lemma running_total (ms : list Z) (cs : list CriteriaScore) :
  Forall2 well_scored ms cs ->
  forall (q : Q) (z : Z), q == inject_Z z ->
    exists q' z',
      fold_left (fun sum c => add sum (score c)) cs (Num q) = Num q'
      /\ q' == inject_Z z'
      /\ (z <= z' <= z + fold_right Z.add 0 ms)%Z.
Proof.
  induction 1 as [|m c ms cs Hc _ IH]; intros q z Hq; simpl.
  - exists q, z. split; [reflexivity|]. split; [exact Hq|lia].
  - destruct Hc as (_ & (s & Hs & Hrange) & _). rewrite Hs. simpl.
    destruct (IH (q + inject_Z s) (z + s)%Z) as (q' & z' & Hfold & Hq' & Hz').
    { rewrite inject_Z_plus, Hq. reflexivity. }
    exists q', z'. split; [exact Hfold|]. split; [exact Hq'|lia].
Qed.

(** For a document whose paths mapping is absent or inhabited the total is
    an integer between 0 and 100. *)
Lemma totalScore_within (document : Document.t) :
  paths_absent_or_inhabited document ->
  totalScore (Reporter.scoreSpec document) = Reporter.total (Reporter.evaluate document)
  /\ within 0 100 (totalScore (Reporter.scoreSpec document))
  /\ integral (totalScore (Reporter.scoreSpec document)).
Proof.
  intro H. split; [reflexivity|]. simpl totalScore. unfold Reporter.total.
  destruct (running_total _ _ (evaluate_well_scored document H) 0 0%Z)
    as (q & z & Hfold & Hq & Hz); [reflexivity|].
  change (of_nat 0) with (Num 0). rewrite Hfold. simpl in Hz. simpl.
  split.
  - rewrite Hq. split.
    + change 0 with (inject_Z 0). rewrite <- Zle_Qle. lia.
    + change 100 with (inject_Z 100). rewrite <- Zle_Qle. lia.
  - exists z. exact Hq.
Qed.

End Results.

(** ** Documents without paths *)

Module NoPaths.

Import JS Spec JSFacts Evaluators Results.

(** When the paths mapping is absent the three path-based evaluators return
    at once: score 0, percentage 0, the single finding. *)
Lemma absent_paths_short_circuit (document : Document.t) :
  Document.paths document = None ->
  Forall (fun c => score c = of_Z 0 /\ percentage c = of_Z 0
                   /\ feedback c = ["No paths defined"])
    [ scorePathsAndOperations document;
      scoreResponseCodes document;
      scoreExamples document ].
Proof.
  intro H. unfold scorePathsAndOperations, scoreResponseCodes, scoreExamples.
  rewrite H. repeat constructor.
Qed.

Example no_paths_short_circuit :
  map feedback
    [ scorePathsAndOperations Samples.no_paths;
      scoreResponseCodes Samples.no_paths;
      scoreExamples Samples.no_paths ]
  = [["No paths defined"]; ["No paths defined"]; ["No paths defined"]]
  /\ totalScore (Reporter.scoreSpec Samples.no_paths) = of_Z 0.
Proof.
  pose proof (absent_paths_short_circuit Samples.no_paths eq_refl) as H.
  repeat match goal with
         | H : Forall _ (_ :: _) |- _ => inversion H; clear H; subst
         end.
  repeat match goal with
         | H : _ /\ _ |- _ => destruct H
         end.
  split; [simpl; congruence|vm_compute; reflexivity].
Qed.

(** With an empty paths mapping the evaluator runs past its guard and
    divides [wellNamedPaths = 0] by [pathCount = 0]. *)
Lemma empty_paths_score (document : Document.t) :
  Document.paths document = Some [] ->
  score (scorePathsAndOperations document) = NaN.
Proof.
  intro H. unfold scorePathsAndOperations. rewrite H. reflexivity.
Qed.

(** C1 (defect in the code).  When the paths mapping is present but empty the
    guard [!document.paths] does not fire: Paths & Operations divides zero by
    zero and returns the score NaN, and none of the three evaluators reports
    the finding "No paths defined". *)
Theorem empty_paths_not_short_circuited (document : Document.t) :
  Document.paths document = Some [] ->
  score (scorePathsAndOperations document) = NaN
  /\ percentage (scorePathsAndOperations document) = NaN
  /\ feedback (scorePathsAndOperations document)
     = [ "0/0 paths follow RESTful naming conventions";
         "No overlapping or redundant paths detected" ]
  /\ score (scoreResponseCodes document) = of_Z 0
  /\ feedback (scoreResponseCodes document) = []
  /\ score (scoreExamples document) = of_Z 0
  /\ feedback (scoreExamples document) = []
  /\ ~ In "No paths defined"
         (feedback (scorePathsAndOperations document)
          ++ feedback (scoreResponseCodes document)
          ++ feedback (scoreExamples document)).
Proof.
  intro H. split; [now apply empty_paths_score|].
  unfold scorePathsAndOperations, scoreResponseCodes, scoreExamples.
  rewrite H. repeat split.
  simpl. intros [E|[E|[]]]; discriminate E.
Qed.

Lemma empty_paths_not_short_circuited_witness :
  Document.paths Samples.empty_paths = Some []
  /\ score (scorePathsAndOperations Samples.empty_paths) = NaN
  /\ feedback (scoreResponseCodes Samples.empty_paths) = []
  /\ feedback (scoreExamples Samples.empty_paths) = [].
Proof.
  split; [reflexivity|].
  destruct (empty_paths_not_short_circuited Samples.empty_paths eq_refl)
    as (Hscore & _ & _ & _ & Hcodes & _ & Hexamples & _).
  split; [exact Hscore|]. split; [exact Hcodes | exact Hexamples].
Defined.

Lemma add_NaN_r (x : number) : add x NaN = NaN.
Proof. destruct x; reflexivity. Qed.

(** C2 (defect in the code, the same one).  The total is the sum of the seven
    [score] fields, so for a document whose paths mapping is present but empty
    it is NaN, not a number of [[0, 100]]; the grade falls through to F. *)
Theorem empty_paths_total_is_NaN (document : Document.t) :
  Document.paths document = Some [] ->
  totalScore (Reporter.scoreSpec document) = Reporter.total (Reporter.evaluate document)
  /\ totalScore (Reporter.scoreSpec document) = NaN
  /\ ~ within 0 100 (totalScore (Reporter.scoreSpec document))
  /\ grade (Reporter.scoreSpec document) = "F".
Proof.
  intro H.
  assert (Htotal : Reporter.total (Reporter.evaluate document) = NaN).
  { unfold Reporter.total, Reporter.evaluate. simpl fold_left.
    rewrite (empty_paths_score document H), add_NaN_r. reflexivity. }
  repeat split.
  - simpl totalScore. exact Htotal.
  - simpl totalScore. rewrite Htotal. simpl. tauto.
  - simpl grade. rewrite Htotal. reflexivity.
Qed.

Lemma empty_paths_total_is_NaN_witness :
  totalScore (Reporter.scoreSpec Samples.empty_paths)
  = Reporter.total (Reporter.evaluate Samples.empty_paths)
  /\ totalScore (Reporter.scoreSpec Samples.empty_paths) = NaN
  /\ ~ within 0 100 (totalScore (Reporter.scoreSpec Samples.empty_paths))
  /\ grade (Reporter.scoreSpec Samples.empty_paths) = "F".
Proof.
  apply (empty_paths_total_is_NaN Samples.empty_paths). reflexivity.
Defined.

End NoPaths.

(** ** Percentages *)

Module Percentages.

Import JS Spec JSFacts Evaluators Results.

(** C3 as stated fails: with one properly typed schema out of four the
    unrounded score is 7.5, the [score] field 8, and the percentage 38, where
    the rounded score would give 40. *)
Lemma percentage_not_from_score_field :
  score (scoreSchemaAndTypes Samples.one_in_four) = of_Z 8
  /\ percentage (scoreSchemaAndTypes Samples.one_in_four) = of_Z 38
  /\ percentage_of_score_field (scoreSchemaAndTypes Samples.one_in_four) = of_Z 40
  /\ percentage (scoreSchemaAndTypes Samples.one_in_four)
     <> percentage_of_score_field (scoreSchemaAndTypes Samples.one_in_four).
Proof.
  repeat split; try (vm_compute; reflexivity).
  vm_compute. intro H. discriminate H.
Qed.

(** Rounding to the nearest integer moves a number by at most one half. *)
Lemma round_is_near (q : Q) : rounds (Qfloor (q + (1 # 2))) q.
Proof.
  pose proof (Qfloor_le (q + (1 # 2))) as Hle.
  pose proof (Qlt_floor (q + (1 # 2))) as Hlt.
  rewrite inject_Z_plus in Hlt. change (inject_Z 1) with 1 in Hlt.
  unfold rounds, tolerance. split; lra.
Qed.

Lemma of_Z_injective (a b : Z) : of_Z a = of_Z b -> a = b.
Proof. unfold of_Z, inject_Z. intro H. now injection H. Qed.

(** The object built at the end of an evaluator tracks the tally. *)
Lemma result_tracks (label : string) (m : nat) (r : Tally.t) :
  (0 < m)%nat ->
  within 0 (inject_Z (Z.of_nat m)) (Tally.score r) ->
  tracks (Z.of_nat m) (Tally.score r) (Tally.result label (of_nat m) r).
Proof.
  intros Hm Hr.
  destruct (result_well_scored label m r Hm Hr) as (_ & (s & Hs & Hsr) & (p & Hp & Hpr)).
  unfold Tally.result in *. cbn [score percentage] in *.
  destruct (Tally.score r) as [q|]; [|destruct Hr].
  destruct Hr as [H0 H1].
  exists q, s, p. split; [reflexivity|]. split; [exact H0|]. split; [exact H1|].
  split; [exact Hs|]. split; [exact Hsr|].
  split.
  { cbn [round] in Hs. apply of_Z_injective in Hs. subst s. apply round_is_near. }
  split; [exact Hp|]. split; [exact Hpr|].
  pose proof (inject_nat_pos m Hm) as Hpos.
  unfold div, of_nat, of_Z in Hp.
  destruct (Qeq_bool (inject_Z (Z.of_nat m)) 0) eqn:E.
  { apply Qeq_bool_eq in E. lra. }
  cbn [mul round] in Hp. apply of_Z_injective in Hp. subst p.
  pose proof (round_is_near (q / inject_Z (Z.of_nat m) * inject_Z (Z.of_nat 100)))
    as Hnear.
  assert (Heq : q / inject_Z (Z.of_nat m) * inject_Z (Z.of_nat 100)
                == 100 * q / inject_Z (Z.of_nat m)).
  { change (inject_Z (Z.of_nat 100)) with (100 # 1). field. lra. }
  unfold rounds in *. rewrite <- Heq. exact Hnear.
Qed.

(** The result returned by a guard [if (!document.paths)]. *)
Lemma short_circuit_tracks (label : string) (m : nat) (fs ss : list string) :
  (0 < m)%nat ->
  tracks (Z.of_nat m) (of_nat 0)
    (mkCriteriaScore label (of_nat 0) (of_nat m) (of_nat 0) fs ss).
Proof.
  intro Hm. pose proof (inject_nat_pos m Hm) as Hpos.
  exists 0, 0%Z, 0%Z. cbn [score percentage].
  split; [reflexivity|]. split; [lra|]. split; [lra|].
  split; [reflexivity|]. split; [lia|].
  split; [unfold rounds, tolerance, inject_Z; split; lra|].
  split; [reflexivity|]. split; [lia|].
  assert (Heq : 100 * 0 / inject_Z (Z.of_nat m) == 0) by (field; lra).
  unfold rounds, tolerance. rewrite Heq. unfold inject_Z. split; lra.
Qed.

(** C3 (amended).  For a document whose paths mapping is absent or inhabited,
    each of the seven results is built from the score before rounding, not
    from its own [score] field: the [score] field is that score rounded to a
    nearest integer and the [percentage] is [100 * score / max] of the same
    unrounded score rounded to a nearest integer, both up to the rounding
    error of binary64; the score is an integer of [[0, max]] and the
    percentage an integer of [[0, 100]]. *)
Theorem percentage_tracks_unrounded_score (document : Document.t) :
  paths_absent_or_inhabited document ->
  Forall2 tracks_pair (combine maxima (unrounded document))
    (Reporter.evaluate document).
Proof.
  intro H. unfold paths_absent_or_inhabited in H.
  unfold Reporter.evaluate, unrounded, maxima, tracks_pair. cbn [combine].
  unfold scorePathsAndOperations, scoreResponseCodes, scoreExamples.
  repeat apply Forall2_cons; try apply Forall2_nil; cbn [fst snd].
  - apply (result_tracks _ 20); [lia|apply Bounds.schemaAndTypes_within].
  - apply (result_tracks _ 20); [lia|apply Bounds.descriptions_within].
  - destruct (Document.paths document) as [document_paths|].
    + apply (result_tracks _ 15); [lia|].
      apply Bounds.pathsAndOperations_within. intros ->. now apply H.
    + apply (short_circuit_tracks _ 15). lia.
  - destruct (Document.paths document) as [document_paths|].
    + apply (result_tracks _ 15); [lia|apply Bounds.responseCodes_within].
    + apply (short_circuit_tracks _ 15). lia.
  - destruct (Document.paths document) as [document_paths|].
    + apply (result_tracks _ 10); [lia|apply Bounds.examples_within].
    + apply (short_circuit_tracks _ 10). lia.
  - apply (result_tracks _ 10); [lia|apply Bounds.security_within].
  - apply (result_tracks _ 10); [lia|apply Bounds.bestPractices_within].
Qed.

Lemma percentage_tracks_unrounded_score_witness :
  Forall2 tracks_pair (combine maxima (unrounded Samples.one_in_four))
    (Reporter.evaluate Samples.one_in_four).
Proof.
  apply (percentage_tracks_unrounded_score Samples.one_in_four).
  unfold paths_absent_or_inhabited. simpl. discriminate.
Defined.

End Percentages.

(** ** Grades *)

Module Grades.

Import JS Spec Reporter.

Lemma Qle_bool_false (a b : Q) : Qle_bool a b = false -> b < a.
Proof.
  intro H. apply Qnot_le_lt. intro Hle. apply Qle_bool_iff in Hle. congruence.
Qed.

Ltac grade_facts :=
  unfold calculateGrade, geb, of_nat, of_Z;
  repeat match goal with
  | |- context [Qle_bool ?a ?b] => destruct (Qle_bool a b) eqn:?
  end;
  repeat match goal with
  | H : Qle_bool _ _ = true |- _ => apply Qle_bool_iff in H; simpl in H
  | H : Qle_bool _ _ = false |- _ => apply Qle_bool_false in H; simpl in H
  end;
  unfold inject_Z in *.

Lemma grade_bands (q : Q) :
  (80 <= q -> calculateGrade (Num q) = "A")
  /\ (70 <= q < 80 -> calculateGrade (Num q) = "B")
  /\ (60 <= q < 70 -> calculateGrade (Num q) = "C")
  /\ (50 <= q < 60 -> calculateGrade (Num q) = "D")
  /\ (q < 50 -> calculateGrade (Num q) = "F").
Proof.
  repeat split; intro H; grade_facts; try reflexivity; exfalso; lra.
Qed.

Lemma grade_monotone (p q : Q) :
  p <= q ->
  (grade_rank (calculateGrade (Num p)) <= grade_rank (calculateGrade (Num q)))%nat.
Proof.
  intro H. grade_facts; first [ vm_compute; lia | exfalso; lra ].
Qed.

(** C5.  In both revisions the grade of a scoring result is [calculateGrade]
    of its total and of nothing else; [calculateGrade] follows the bands
    80/70/60/50, never decreases when the total grows, and maps 80, 79, 70,
    69, 60, 59, 50, 49 to A, B, B, C, C, D, D, F. *)
Theorem grade_is_banded_and_monotone :
  (forall document,
      grade (scoreSpec document) = calculateGrade (totalScore (scoreSpec document))
      /\ grade (scoreSpec_console document)
         = calculateGrade (totalScore (scoreSpec_console document)))
  /\ (forall q : Q,
         (80 <= q -> calculateGrade (Num q) = "A")
         /\ (70 <= q < 80 -> calculateGrade (Num q) = "B")
         /\ (60 <= q < 70 -> calculateGrade (Num q) = "C")
         /\ (50 <= q < 60 -> calculateGrade (Num q) = "D")
         /\ (q < 50 -> calculateGrade (Num q) = "F"))
  /\ (forall p q : Q,
         p <= q ->
         (grade_rank (calculateGrade (Num p))
          <= grade_rank (calculateGrade (Num q)))%nat)
  /\ map (fun n => calculateGrade (of_nat n)) [80; 79; 70; 69; 60; 59; 50; 49]%nat
     = ["A"; "B"; "B"; "C"; "C"; "D"; "D"; "F"].
Proof.
  split; [intro; split; reflexivity|].
  split; [exact grade_bands|].
  split; [exact grade_monotone|].
  reflexivity.
Qed.

End Grades.

(** ** The minimal document *)

Module Minimal.

Import JS Spec Evaluators.

(** C8.  For the minimal document (whatever its [openapi] string and the
    text of the response description) Security scores 0, Best Practices at
    most 2, Examples & Samples 0, and the grade is D or F. *)
Theorem minimal_document_scores (openapi description : string) :
  score (scoreSecurity (Samples.minimal openapi description)) = of_Z 0
  /\ (exists z, score (scoreBestPractices (Samples.minimal openapi description)) = of_Z z
                /\ (z <= 2)%Z)
  /\ score (scoreExamples (Samples.minimal openapi description)) = of_Z 0
  /\ (grade (Reporter.scoreSpec (Samples.minimal openapi description)) = "D"
      \/ grade (Reporter.scoreSpec (Samples.minimal openapi description)) = "F").
Proof.
  split; [vm_compute; reflexivity|].
  split; [exists 0%Z; split; [vm_compute; reflexivity|lia]|].
  split; [vm_compute; reflexivity|].
  right. destruct description; vm_compute; reflexivity.
Qed.

End Minimal.

(** ** Schema usage *)

Module SchemaUsage.

Import JS Spec JSFacts Evaluators Bounds Results.

(** C9.  The schema-usage term is at most 5 whenever it is awarded; the count
    of usages can exceed twice the number of operations (one operation whose
    request body has three typed media types: 3 usages, 1 operation, and the
    term is clamped to 5); the Schema & Types score is an integer of
    [[0, 20]]. *)
Theorem schema_usage_is_clamped :
  (forall paths,
      (0 < snd (count_schema_usage paths))%nat ->
      within 0 5 (schema_usage_term (fst (count_schema_usage paths))
                    (snd (count_schema_usage paths))))
  /\ (count_schema_usage Samples.three_media_paths = (3%nat, 1%nat)
      /\ within 5 5 (schema_usage_term 3 1))
  /\ (forall document, well_scored 20 (scoreSchemaAndTypes document)).
Proof.
  split; [|split].
  - intros paths H. now apply schema_usage_term_within.
  - split; [vm_compute; reflexivity|].
    vm_compute. split; discriminate.
  - exact scoreSchemaAndTypes_well_scored.
Qed.

End SchemaUsage.

(** ** Overall feedback *)

Module Feedback.

Import JS Spec Reporter.

Lemma below_finite (cutoff : nat) (c : CriteriaScore) :
  below cutoff c = true -> exists p, percentage c = Num p.
Proof.
  unfold below. destruct (percentage c) as [p|]; simpl; [|discriminate].
  intros _. now exists p.
Qed.

Lemma percentage_le_trans (a b c : CriteriaScore) :
  percentage_le a b -> percentage_le b c -> percentage_le a c.
Proof.
  unfold percentage_le.
  destruct (percentage a), (percentage b), (percentage c); try tauto.
  intros. lra.
Qed.

Lemma insert_permutation (a : CriteriaScore) (l : list CriteriaScore) :
  Permutation (insert_by_percentage a l) (a :: l).
Proof.
  induction l as [|b l IH]; cbn [insert_by_percentage]; [reflexivity|].
  destruct (gtb (sub (percentage a) (percentage b)) (of_nat 0)).
  - apply perm_trans with (b :: a :: l); [now apply perm_skip | apply perm_swap].
  - reflexivity.
Qed.

Lemma sort_permutation (l : list CriteriaScore) :
  Permutation (sort_by_percentage l) l.
Proof.
  induction l as [|a l IH]; simpl; [reflexivity|].
  rewrite insert_permutation. now constructor.
Qed.

(** The comparator decides the order of two finite percentages. *)
Lemma comparator_order (a b : CriteriaScore) (p q : Q) :
  percentage a = Num p -> percentage b = Num q ->
  if gtb (sub (percentage a) (percentage b)) (of_nat 0)
  then percentage_le b a else percentage_le a b.
Proof.
  intros Ha Hb. unfold percentage_le. rewrite Ha, Hb. simpl.
  destruct (Qle_bool (p - q) (inject_Z 0)) eqn:E; simpl.
  - apply Qle_bool_iff in E. unfold inject_Z in E. lra.
  - assert (~ p - q <= inject_Z 0).
    { intro H. apply Qle_bool_iff in H. congruence. }
    unfold inject_Z in *. lra.
Qed.

Lemma insert_sorted (a : CriteriaScore) (l : list CriteriaScore) :
  finite a -> Forall finite l ->
  StronglySorted percentage_le l ->
  StronglySorted percentage_le (insert_by_percentage a l).
Proof.
  intros [p Ha] Hfin Hsorted.
  induction Hsorted as [|b l Hl IH Hb]; cbn [insert_by_percentage].
  - constructor; constructor.
  - inversion Hfin as [|? ? [q Hq] Hfin']; subst.
    pose proof (comparator_order a b p q Ha Hq) as Horder.
    destruct (gtb (sub (percentage a) (percentage b)) (of_nat 0)).
    + constructor; [now apply IH|].
      rewrite insert_permutation. now constructor.
    + constructor; [now constructor|].
      constructor; [exact Horder|].
      eapply Forall_impl; [|exact Hb].
      intros c Hc. now apply percentage_le_trans with b.
Qed.

Lemma sort_sorted (l : list CriteriaScore) :
  Forall finite l -> StronglySorted percentage_le (sort_by_percentage l).
Proof.
  induction 1 as [|a l Ha Hl IH]; simpl; [constructor|].
  apply insert_sorted; [exact Ha| |exact IH].
  rewrite sort_permutation. exact Hl.
Qed.

Lemma weak_criteria_finite (cutoff : nat) (criteria : list CriteriaScore) :
  Forall finite (filter (below cutoff) criteria).
Proof.
  apply Forall_forall. intros c Hc. apply filter_In in Hc.
  destruct Hc as [_ Hc]. now apply below_finite with cutoff.
Qed.

(** The weak areas: the first three, at most, of the criteria below the
    cut-off in ascending order. *)
Lemma weakAreas_spec (cutoff : nat) (criteria : list CriteriaScore) :
  exists rest,
    Permutation (weakAreas cutoff criteria ++ rest) (filter (below cutoff) criteria)
    /\ StronglySorted percentage_le (weakAreas cutoff criteria ++ rest)
    /\ List.length (weakAreas cutoff criteria)
       = Nat.min 3 (List.length (filter (below cutoff) criteria)).
Proof.
  unfold weakAreas. fold (below cutoff).
  set (weak_criteria := filter (below cutoff) criteria).
  exists (skipn 3 (sort_by_percentage weak_criteria)).
  rewrite firstn_skipn, length_firstn.
  split; [apply sort_permutation|]. split.
  - apply sort_sorted, weak_criteria_finite.
  - now rewrite (Permutation_length (sort_permutation weak_criteria)).
Qed.

(** A generator that pushes one narrative line and then the weak-area line
    when [weakAreas] is not empty reports weak areas as specified. *)
Lemma weak_area_report_of_generator (cutoff : nat)
    (generate : number -> list CriteriaScore -> list string) :
  (forall totalScore criteria,
      exists line,
        generate totalScore criteria
        = if (0 <? List.length (weakAreas cutoff criteria))%nat
          then [line; weak_line (weakAreas cutoff criteria)]
          else [line]) ->
  weak_area_report cutoff generate.
Proof.
  intros Hgen totalScore criteria weak_criteria.
  destruct (Hgen totalScore criteria) as [line Hline].
  destruct (weakAreas_spec cutoff criteria) as (rest & Hperm & Hsorted & Hlen).
  fold weak_criteria in Hperm, Hlen. split.
  - intro Hnone. rewrite Hnone in Hlen. simpl in Hlen.
    rewrite Hlen in Hline. now exists line.
  - intro Hsome.
    assert (Hpos : (0 < List.length (weakAreas cutoff criteria))%nat).
    { rewrite Hlen. destruct weak_criteria; [congruence|simpl; lia]. }
    apply Nat.ltb_lt in Hpos. rewrite Hpos in Hline.
    now exists line, (weakAreas cutoff criteria), rest.
Qed.

Lemma console_generator (totalScore : number) (criteria : list CriteriaScore) :
  exists line,
    generateOverallFeedback_console totalScore criteria
    = if (0 <? List.length (weakAreas 60 criteria))%nat
      then [line; weak_line (weakAreas 60 criteria)]
      else [line].
Proof.
  unfold generateOverallFeedback_console.
  destruct (geb totalScore (of_nat 90)); [|destruct (geb totalScore (of_nat 80));
    [|destruct (geb totalScore (of_nat 70)); [|destruct (geb totalScore (of_nat 60))]]];
    eexists; destruct (0 <? List.length (weakAreas 60 criteria))%nat; reflexivity.
Qed.

Lemma report_generator (totalScore : number) (criteria : list CriteriaScore) :
  exists line,
    generateOverallFeedback totalScore criteria
    = if (0 <? List.length (weakAreas 50 criteria))%nat
      then [line; weak_line (weakAreas 50 criteria)]
      else [line].
Proof.
  unfold generateOverallFeedback.
  destruct (geb totalScore (of_nat 80)); [|destruct (geb totalScore (of_nat 70));
    [|destruct (geb totalScore (of_nat 60)); [|destruct (geb totalScore (of_nat 50))]]];
    eexists; destruct (0 <? List.length (weakAreas 50 criteria))%nat; reflexivity.
Qed.

(** C4 as stated fails for the revision that writes Markdown and HTML
    reports: a criterion at 55% is below 60, yet no weak-area line is
    produced, because that revision's cut-off is 50.  So it is for a whole
    document: [Samples.documented] has two criteria at 50% and its overall
    feedback is the narrative line alone. *)
Lemma cutoff_60_fails_for_report_revision :
  ~ weak_area_report 60 generateOverallFeedback
  /\ map percentage (criteria (scoreSpec Samples.documented))
     = map of_Z [88; 70; 67; 100; 50; 50; 70]%Z
  /\ overallFeedback (scoreSpec Samples.documented) = [good].
Proof.
  split; [|split; vm_compute; reflexivity].
  intro H.
  destruct (H (of_nat 70) (criteria_with [55; 100; 100; 100; 100; 100; 100]%nat))
    as [_ Hweak].
  destruct Hweak as (line & named & rest & Heq & _).
  - vm_compute. discriminate.
  - vm_compute in Heq. discriminate Heq.
Qed.

(** C4 (amended).  Each revision reports weak areas as specified for its own
    cut-off: 60 in the console-only revision, 50 in the revision with
    Markdown and HTML reports.  For the percentages 90, 10, 20, 30, 95, 85, 88
    both name the second, third and fourth criterion, in that order; when
    all seven are weak only the three lowest are named. *)
Theorem weak_areas_reported_per_revision :
  weak_area_report 60 generateOverallFeedback_console
  /\ weak_area_report 50 generateOverallFeedback
  /\ (forall totalScore,
         exists line,
           generateOverallFeedback_console totalScore
             (criteria_with [90; 10; 20; 30; 95; 85; 88]%nat)
           = [line; "Focus on improving: Descriptions & Documentation, Paths & Operations, Response Codes"])
  /\ (forall totalScore,
         exists line,
           generateOverallFeedback totalScore
             (criteria_with [90; 10; 20; 30; 95; 85; 88]%nat)
           = [line; "Focus on improving: Descriptions & Documentation, Paths & Operations, Response Codes"])
  /\ map name (weakAreas 60 (criteria_with [40; 30; 20; 10; 0; 45; 5]%nat))
     = ["Examples & Samples"; "Best Practices"; "Response Codes"].
Proof.
  split; [apply weak_area_report_of_generator, console_generator|].
  split; [apply weak_area_report_of_generator, report_generator|].
  split; [|split; [|vm_compute; reflexivity]].
  - intro totalScore.
    destruct (console_generator totalScore
                (criteria_with [90; 10; 20; 30; 95; 85; 88]%nat)) as [line Hline].
    exists line. rewrite Hline. reflexivity.
  - intro totalScore.
    destruct (report_generator totalScore
                (criteria_with [90; 10; 20; 30; 95; 85; 88]%nat)) as [line Hline].
    exists line. rewrite Hline. reflexivity.
Qed.

End Feedback.

(** ** Properly typed schemas *)

Module ProperlyTyped.

Import JS Spec JSFacts Evaluators LoopFacts Bounds.

Lemma properly_typed_has_type (s : Schema.t) :
  properly_typed s = true -> Schema.has_type s = true.
Proof.
  unfold properly_typed. destruct s as [ref|[type|] properties additional]; simpl;
    try discriminate; reflexivity.
Qed.

(** The first counter of the schemas loop counts the schemas with
    [type === 'object'] and a [properties] field. *)
Lemma count_schemas_properly_typed (schemas : Dict.t Schema.t) :
  fst (count_schemas schemas) = List.length (filter properly_typed (Dict.values schemas)).
Proof.
  unfold count_schemas, forEach.
  change (List.length (filter properly_typed (Dict.values schemas)))
    with (fst (0%nat, 0%nat) + List.length (filter properly_typed (Dict.values schemas)))%nat.
  generalize (0%nat, 0%nat).
  induction (Dict.values schemas) as [|schema l IH]; intros [properlyTyped freeForm];
    simpl; [lia|].
  rewrite IH. fold (properly_typed schema).
  destruct (properly_typed schema) eqn:E.
  - rewrite (properly_typed_has_type schema E). simpl. lia.
  - destruct (Schema.has_type schema); simpl; [|lia].
    destruct (Schema.type_is_object schema && negb (Schema.properties_truthy schema)
              && negb (Schema.additionalProperties_truthy schema)); simpl; lia.
Qed.

Lemma properly_typed_shape (s : Schema.t) :
  properly_typed s = true <->
  exists properties additional, s = Schema.Object (Some "object") (Some properties) additional.
Proof.
  unfold properly_typed. split.
  - destruct s as [ref|[type|] [properties|] additional]; simpl; try discriminate.
    + rewrite andb_true_r. intro H. apply String.eqb_eq in H. subst.
      now exists properties, additional.
    + rewrite andb_false_r. discriminate.
  - intros (properties & additional & ->). reflexivity.
Qed.

Lemma filter_all {A : Type} (p : A -> bool) (l : list A) :
  forallb p l = true -> filter p l = l.
Proof.
  induction l as [|x l IH]; simpl; [reflexivity|].
  intro H. apply andb_prop in H. destruct H as [Hx Hl].
  rewrite Hx, (IH Hl). reflexivity.
Qed.

Lemma full_share (n k : nat) :
  (0 < n)%nat ->
  within (inject_Z (Z.of_nat k)) (inject_Z (Z.of_nat k)) (share n n k).
Proof.
  intro Hn. unfold share. rewrite (div_counts n n Hn). simpl.
  pose proof (inject_nat_pos n Hn) as Hp.
  assert (H1 : inject_Z (Z.of_nat n) / inject_Z (Z.of_nat n) == 1) by (field; lra).
  rewrite H1. split; lra.
Qed.

Lemma full_properly_typed_term (n : nat) :
  (0 < n)%nat -> within 10 10 (properly_typed_term n n).
Proof.
  intro Hn. unfold properly_typed_term.
  replace (Nat.max n 1) with n by lia.
  pose proof (full_share n 10 Hn) as H.
  destruct (share n n 10) as [q|]; simpl in *; [|tauto].
  destruct (Qle_bool (inject_Z 10) q); unfold inject_Z in *; lra.
Qed.

(** C6 as stated fails: an object schema whose [properties] map is empty is
    counted as properly typed, and earns the whole term. *)
Lemma empty_properties_count_as_properly_typed :
  properly_typed_nonempty Samples.bare_object = false
  /\ fst (count_schemas [("Anything", Samples.bare_object)]) = 1%nat
  /\ score (scoreSchemaAndTypes Samples.bare_object_document) = of_Z 15.
Proof.
  repeat split; vm_compute; reflexivity.
Qed.

(** The term is the quotient of the two counters times 10; the cap at 10 is
    never reached from above. *)
Lemma properly_typed_term_near (properlyTyped schemaCount : nat) :
  (0 < properlyTyped <= schemaCount)%nat ->
  properly_typed_term properlyTyped schemaCount
  = min (of_nat 10) (mul (div (of_nat properlyTyped) (of_nat schemaCount)) (of_nat 10))
  /\ near (properly_typed_term properlyTyped schemaCount)
       (10 * inject_Z (Z.of_nat properlyTyped) / inject_Z (Z.of_nat schemaCount)).
Proof.
  intros [Hpos Hle]. assert (Hcount : (0 < schemaCount)%nat) by lia.
  unfold properly_typed_term. replace (Nat.max schemaCount 1) with schemaCount by lia.
  split; [reflexivity|].
  pose proof (share_near properlyTyped schemaCount 10 Hcount) as Hnear.
  pose proof (share_within properlyTyped schemaCount 10 Hle Hcount) as Hin.
  change (inject_Z (Z.of_nat 10)) with (10 # 1) in *.
  destruct (share properlyTyped schemaCount 10) as [q|]; [|destruct Hin].
  unfold near, within, tolerance in *. cbn [min of_nat of_Z].
  change (inject_Z (Z.of_nat 10)) with (10 # 1).
  destruct (Qle_bool (10 # 1) q) eqn:E; [|exact Hnear].
  apply Qle_bool_iff in E. split; lra.
Qed.

(** The score of Schema & Types is built in three steps. *)
Lemma schemaAndTypes_score (document : Document.t) :
  Tally.score (schemaAndTypes_tally document)
  = with_schema_usage document
      (schema_steps (List.length (Dict.keys (named_schemas document)))
         (fst (count_schemas (named_schemas document)))).
Proof.
  unfold schemaAndTypes_tally, with_schema_usage, schema_steps. cbv zeta.
  destruct (count_schemas (named_schemas document)) as [properlyTyped freeForm].
  cbn [fst].
  destruct (match Document.paths document with
            | Some paths => count_schema_usage paths
            | None => (0%nat, 0%nat)
            end) as [operationsWithSchemas totalOperations].
  destruct (0 <? List.length (Dict.keys (named_schemas document)))%nat,
    (0 <? properlyTyped)%nat, (0 <? freeForm)%nat, (0 <? totalOperations)%nat;
    cbn [Tally.score Tally.award Tally.finding Tally.suggest Tally.start];
    match goal with
    | |- context [if ?b then _ else _] => destruct b
    end; reflexivity.
Qed.

(** The properly-typed finding, once pushed, stays in the list. *)
Lemma properly_typed_finding (document : Document.t) :
  (0 < fst (count_schemas (named_schemas document)))%nat ->
  In (string_of_nat (fst (count_schemas (named_schemas document)))
      ++ " schemas have proper type definitions")%string
    (Tally.feedback (schemaAndTypes_tally document)).
Proof.
  intro Hpos. apply Nat.ltb_lt in Hpos.
  unfold schemaAndTypes_tally. cbv zeta.
  destruct (count_schemas (named_schemas document)) as [properlyTyped freeForm].
  cbn [fst] in *. rewrite Hpos.
  destruct (match Document.paths document with
            | Some paths => count_schema_usage paths
            | None => (0%nat, 0%nat)
            end) as [operationsWithSchemas totalOperations].
  destruct (0 <? List.length (Dict.keys (named_schemas document)))%nat,
    (0 <? freeForm)%nat, (0 <? totalOperations)%nat;
    match goal with
    | |- context [if ?b then _ else _] => destruct b
    end;
    cbn [Tally.feedback Tally.award Tally.finding Tally.suggest Tally.start];
    rewrite ?in_app_iff; simpl; tauto.
Qed.

(** C6 (amended).  A named schema counts as properly typed exactly when its
    type is [object] and its [properties] map is present, empty or not.  With
    [properlyTyped] such schemas among [schemaCount], the unrounded score is 5
    for having a schema, plus the properly-typed term when [properlyTyped > 0],
    plus the schema-usage term; the properly-typed term is
    [min(10, properlyTyped / schemaCount * 10)], that is
    [10 * properlyTyped / schemaCount] up to the rounding error of binary64,
    and it is reported as a finding.  When all [N >= 1] named schemas are
    properly typed the term is exactly 10 and the unrounded score at least
    15. *)
Theorem properly_typed_term_is_proportional (document : Document.t) :
  let schemas := named_schemas document in
  let schemaCount := List.length (Dict.keys schemas) in
  let properlyTyped := List.length (filter properly_typed (Dict.values schemas)) in
  (forall s, properly_typed s = true <->
             exists properties additional,
               s = Schema.Object (Some "object") (Some properties) additional)
  /\ fst (count_schemas schemas) = properlyTyped
  /\ (properlyTyped <= schemaCount)%nat
  /\ Tally.score (schemaAndTypes_tally document)
     = with_schema_usage document (schema_steps schemaCount properlyTyped)
  /\ ((0 < properlyTyped)%nat ->
      schema_steps schemaCount properlyTyped
      = add (add (of_nat 0) (of_nat 5)) (properly_typed_term properlyTyped schemaCount)
      /\ properly_typed_term properlyTyped schemaCount
         = min (of_nat 10)
             (mul (div (of_nat properlyTyped) (of_nat schemaCount)) (of_nat 10))
      /\ near (properly_typed_term properlyTyped schemaCount)
           (10 * inject_Z (Z.of_nat properlyTyped) / inject_Z (Z.of_nat schemaCount))
      /\ In (string_of_nat properlyTyped ++ " schemas have proper type definitions")%string
           (feedback (scoreSchemaAndTypes document)))
  /\ ((0 < schemaCount)%nat -> properlyTyped = schemaCount ->
      within 10 10 (properly_typed_term properlyTyped schemaCount)
      /\ within 15 20 (Tally.score (schemaAndTypes_tally document))).
Proof.
  cbv zeta.
  set (schemas := named_schemas document).
  set (schemaCount := List.length (Dict.keys schemas)).
  set (properlyTyped := List.length (filter properly_typed (Dict.values schemas))).
  assert (Hcount : fst (count_schemas schemas) = properlyTyped)
    by apply count_schemas_properly_typed.
  assert (Hle : (properlyTyped <= schemaCount)%nat).
  { unfold properlyTyped, schemaCount. rewrite keys_length, <- values_length.
    apply filter_length_le. }
  assert (Hscore : Tally.score (schemaAndTypes_tally document)
                   = with_schema_usage document (schema_steps schemaCount properlyTyped)).
  { rewrite schemaAndTypes_score. fold schemas. now rewrite Hcount. }
  split; [exact properly_typed_shape|].
  split; [exact Hcount|]. split; [exact Hle|]. split; [exact Hscore|].
  split.
  - intro Hpos.
    destruct (properly_typed_term_near properlyTyped schemaCount (conj Hpos Hle))
      as [Hterm Hnear].
    split.
    { unfold schema_steps. cbv zeta.
      assert (H1 : (0 <? schemaCount)%nat = true) by (apply Nat.ltb_lt; lia).
      assert (H2 : (0 <? properlyTyped)%nat = true) by (apply Nat.ltb_lt; lia).
      now rewrite H1, H2. }
    split; [exact Hterm|]. split; [exact Hnear|].
    unfold scoreSchemaAndTypes, Tally.result. cbn [feedback].
    pose proof (properly_typed_finding document) as Hfinding.
    fold schemas in Hfinding. rewrite Hcount in Hfinding. apply Hfinding. exact Hpos.
  - intros Hpos Hall.
    pose proof (full_properly_typed_term schemaCount Hpos) as Hterm.
    rewrite Hall. split; [exact Hterm|].
    rewrite Hscore, Hall. unfold with_schema_usage, schema_steps. cbv zeta.
    apply Nat.ltb_lt in Hpos. rewrite Hpos.
    destruct (match Document.paths document with
              | Some paths => count_schema_usage paths
              | None => (0%nat, 0%nat)
              end) as [operationsWithSchemas totalOperations].
    destruct (0 <? totalOperations)%nat eqn:Hops.
    + pose proof (schema_usage_term_within operationsWithSchemas totalOperations
                    (proj1 (Nat.ltb_lt _ _) Hops)) as Hu.
      sum_bound.
    + sum_bound.
Qed.

Lemma properly_typed_term_is_proportional_witness :
  near (properly_typed_term 1 4) (10 * 1 / 4)
  /\ In "1 schemas have proper type definitions"
       (feedback (scoreSchemaAndTypes Samples.one_in_four)).
Proof.
  destruct (properly_typed_term_is_proportional Samples.one_in_four)
    as (_ & _ & _ & _ & H & _).
  destruct H as (_ & _ & Hnear & Hfinding); [vm_compute; lia|].
  split; [exact Hnear|exact Hfinding].
Defined.

End ProperlyTyped.

(** ** Redundant paths *)

Module Redundancy.

Import JS Spec Evaluators LoopFacts.

Lemma has_In (s : StringSet.t) (x : string) : StringSet.has s x = true <-> In x s.
Proof.
  unfold StringSet.has. rewrite existsb_exists. split.
  - intros (y & Hy & E). apply String.eqb_eq in E. now subst.
  - intro H. exists x. split; [exact H|apply String.eqb_refl].
Qed.

Lemma add_In (s : StringSet.t) (x y : string) :
  In y (StringSet.add s x) <-> In y s \/ y = x.
Proof.
  unfold StringSet.add. destruct (StringSet.has s x) eqn:E.
  - apply has_In in E. split; [tauto|]. intros [H| ->]; assumption.
  - rewrite in_app_iff. simpl. intuition congruence.
Qed.

Lemma add_NoDup (s : StringSet.t) (x : string) : NoDup s -> NoDup (StringSet.add s x).
Proof.
  intro H. unfold StringSet.add. destruct (StringSet.has s x) eqn:E; [exact H|].
  assert (Hx : ~ In x s).
  { intro Hin. apply has_In in Hin. congruence. }
  apply NoDup_app; [exact H|repeat constructor; intros []|].
  intros y Hy [<-|[]]. exact (Hx Hy).
Qed.

(** Adding a list of strings to a set: no duplicates, the same members. *)
Lemma add_all (l : list string) (s : StringSet.t) :
  NoDup s ->
  NoDup (fold_left StringSet.add l s)
  /\ (forall y, In y (fold_left StringSet.add l s) <-> In y s \/ In y l).
Proof.
  revert s. induction l as [|x l IH]; intros s Hs; simpl.
  - split; [exact Hs|]. intro y. tauto.
  - destruct (IH (StringSet.add s x) (add_NoDup s x Hs)) as [Hnd Hin].
    split; [exact Hnd|]. intro y. rewrite Hin, add_In. intuition congruence.
Qed.

Lemma size_add_all (l : list string) :
  StringSet.size (fold_left StringSet.add l StringSet.empty) = distinct l.
Proof.
  unfold StringSet.size, distinct.
  destruct (add_all l StringSet.empty (NoDup_nil _)) as [Hnd Hin].
  apply Permutation_length, NoDup_Permutation.
  - exact Hnd.
  - apply NoDup_nodup.
  - intro y. rewrite Hin, nodup_In. simpl. tauto.
Qed.

Lemma pathPatterns_fold (document_paths : Dict.t (option PathItem.t))
    (paths : list string) (c : PathCounts) :
  pathPatterns (fold_left (visit_path document_paths) paths c)
  = fold_left StringSet.add
      (map normalizedPath (filter (has_scored_method document_paths) paths))
      (pathPatterns c).
Proof.
  revert c. induction paths as [|path paths IH]; intro c; [reflexivity|].
  cbn [fold_left filter]. rewrite IH.
  unfold has_scored_method at 2. unfold visit_path.
  destruct (Dict.lookup path document_paths) as [[pathItem|]|]; try reflexivity.
  destruct (0 <? List.length (methods_of pathItem))%nat; reflexivity.
Qed.

(** The set [pathPatterns] holds the distinct normalised patterns of the
    paths that have a scored method. *)
Lemma pathPatterns_size (document_paths : Dict.t (option PathItem.t)) :
  StringSet.size (pathPatterns (count_paths document_paths))
  = distinct (scored_patterns document_paths).
Proof.
  unfold count_paths, forEach. rewrite pathPatterns_fold. apply size_add_all.
Qed.

Lemma overlappingPaths_spec (document_paths : Dict.t (option PathItem.t)) :
  overlappingPaths document_paths
  = (Z.of_nat (List.length (Dict.keys document_paths))
     - Z.of_nat (distinct (scored_patterns document_paths)))%Z.
Proof.
  unfold overlappingPaths. now rewrite pathPatterns_size.
Qed.

Lemma naming_and_crud_suggestions (document_paths : Dict.t (option PathItem.t)) :
  Tally.suggestions (naming_and_crud_tally document_paths) = [].
Proof.
  unfold naming_and_crud_tally. cbv zeta.
  destruct (0 <? crudPaths (count_paths document_paths))%nat; reflexivity.
Qed.

(** A path whose only operation is a [head] is its own distinct pattern (one
    path, one pattern, difference 0), yet it is reported as overlapping and
    the bonus is withheld. *)
Lemma unscored_path_counts_as_overlap :
  (Z.of_nat (List.length (Dict.keys Samples.head_only_paths))
   - Z.of_nat (distinct (all_patterns Samples.head_only_paths)) = 0)%Z
  /\ overlappingPaths Samples.head_only_paths = 1%Z
  /\ Tally.score (pathsAndOperations_tally Samples.head_only_paths)
     = Tally.score (naming_and_crud_tally Samples.head_only_paths)
  /\ feedback (scorePathsAndOperations
                 (Samples.document_with (Some Samples.head_only_paths) None))
     = [ "1/1 paths follow RESTful naming conventions";
         "1 potentially overlapping paths detected" ]
  /\ suggestions (scorePathsAndOperations
                    (Samples.document_with (Some Samples.head_only_paths) None))
     = [ "Review path structure for redundancy";
         "Use RESTful naming conventions (lowercase, hyphens, nouns)";
         "Implement consistent CRUD operations for resources" ]
  /\ score (scorePathsAndOperations
              (Samples.document_with (Some Samples.head_only_paths) None))
     = of_Z 7.
Proof.
  repeat split; vm_compute; reflexivity.
Qed.

End Redundancy.

(** ** Per-operation security *)

Module OperationSecurity.

Import JS Spec JSFacts Evaluators LoopFacts.

(** The loop over paths and methods visits the operations of
    [operations_of], in order. *)
Lemma forEachOperation_operations {St : Type} (methods : list string)
    (paths : Dict.t (option PathItem.t)) (s : St) (body : St -> Operation.t -> St) :
  forEachOperation methods paths s body
  = fold_left body (operations_of methods paths) s.
Proof.
  unfold forEachOperation, operations_of, forEach.
  revert s. induction (Dict.values paths) as [|pathItem l IH]; intro s;
    [reflexivity|].
  cbn [fold_left flat_map]. rewrite fold_left_app, IH. f_equal.
  destruct pathItem as [pathItem|]; [|reflexivity].
  unfold forEachMethod, forEach. clear IH. revert s.
  induction methods as [|method methods IH]; intro s; [reflexivity|].
  cbn [fold_left flat_map]. rewrite fold_left_app, IH.
  destruct (PathItem.method pathItem method); reflexivity.
Qed.

Lemma fold_pair_counts {A : Type} (p : A -> bool) (l : list A) (w t : nat) :
  fold_left (fun '(w, t) x => (if p x then S w else w, S t)) l (w, t)
  = ((w + List.length (filter p l))%nat, (t + List.length l)%nat).
Proof.
  revert w t. induction l as [|x l IH]; intros w t; simpl.
  - f_equal; lia.
  - rewrite IH. destruct (p x); simpl; f_equal; lia.
Qed.

Lemma count_security_spec (paths : Dict.t (option PathItem.t)) :
  count_security paths
  = (List.length (filter has_security (operations_of scored_methods paths)),
     List.length (operations_of scored_methods paths)).
Proof.
  unfold count_security. rewrite forEachOperation_operations.
  apply (fold_pair_counts has_security).
Qed.

Lemma share_positive (a b k : nat) :
  (0 < a <= b)%nat -> (0 < k)%nat ->
  exists q, share a b k = Num q /\ 0 < q /\ q <= inject_Z (Z.of_nat k).
Proof.
  intros [Ha Hab] Hk. assert (Hb : (0 < b)%nat) by lia.
  pose proof (share_within a b k Hab Hb) as Hw.
  unfold share in *. rewrite (div_counts a b Hb) in *. simpl in *.
  eexists. split; [reflexivity|]. split; [|tauto].
  pose proof (inject_nat_pos a Ha). pose proof (inject_nat_pos b Hb).
  pose proof (inject_nat_pos k Hk).
  apply Qmult_lt_0_compat; [|assumption].
  apply Qlt_shift_div_l; lra.
Qed.

(** C10.  The operations loop of Security counts an operation whenever its
    [security] field is present, an empty list included.  As soon as one
    operation is counted the evaluator adds to the score the proportion of
    counted operations times 2, [(operationsWithSecurity / totalOperations) * 2]:
    [2 * operationsWithSecurity / totalOperations] up to the rounding error of
    binary64, a positive number of at most 2, and reports the two counters. *)
Theorem security_override_earns_proportional_credit (document : Document.t)
    (paths : Dict.t (option PathItem.t)) (operation : Operation.t) :
  Document.paths document = Some paths ->
  In operation (operations_of scored_methods paths) ->
  Operation.security operation = Some [] ->
  let operations := operations_of scored_methods paths in
  let totalOperations := List.length operations in
  let operationsWithSecurity := List.length (filter has_security operations) in
  has_security operation = true
  /\ count_security paths = (operationsWithSecurity, totalOperations)
  /\ (0 < operationsWithSecurity <= totalOperations)%nat
  /\ Tally.score (security_tally document)
     = add (Tally.score (schemes_tally document))
         (operation_security_term operationsWithSecurity totalOperations)
  /\ operation_security_term operationsWithSecurity totalOperations
     = mul (div (of_nat operationsWithSecurity) (of_nat totalOperations)) (of_nat 2)
  /\ near (operation_security_term operationsWithSecurity totalOperations)
       (2 * inject_Z (Z.of_nat operationsWithSecurity)
        / inject_Z (Z.of_nat totalOperations))
  /\ (exists q,
        operation_security_term operationsWithSecurity totalOperations = Num q
        /\ 0 < q /\ q <= 2)
  /\ In (string_of_nat operationsWithSecurity ++ "/" ++ string_of_nat totalOperations
         ++ " operations have specific security requirements")%string
       (feedback (scoreSecurity document)).
Proof.
  intros Hpaths Hin Hempty. cbv zeta.
  set (operations := operations_of scored_methods paths) in *.
  assert (Hhas : has_security operation = true).
  { unfold has_security. now rewrite Hempty. }
  assert (Hfiltered : In operation (filter has_security operations)).
  { apply filter_In. now split. }
  assert (Hpos : (0 < List.length (filter has_security operations))%nat).
  { destruct (filter has_security operations); [destruct Hfiltered|simpl; lia]. }
  pose proof (filter_length_le has_security operations) as Hle.
  assert (Hops : (0 <? List.length operations)%nat = true) by (apply Nat.ltb_lt; lia).
  assert (Hwith : (0 <? List.length (filter has_security operations))%nat = true)
    by (now apply Nat.ltb_lt).
  split; [exact Hhas|]. split; [apply count_security_spec|].
  split; [split; [exact Hpos|exact Hle]|].
  split.
  { unfold security_tally. rewrite Hpaths, count_security_spec. fold operations.
    cbv zeta beta iota. rewrite Hops, Hwith. cbn [andb].
    match goal with
    | |- context [if ?b then _ else _] => destruct b
    end; reflexivity. }
  split; [reflexivity|].
  split.
  { unfold operation_security_term.
    apply (share_near (List.length (filter has_security operations))
             (List.length operations) 2). lia. }
  split.
  { unfold operation_security_term.
    destruct (share_positive (List.length (filter has_security operations))
                (List.length operations) 2) as (q & Hq & H0 & H2); [lia|lia|].
    exists q. split; [exact Hq|]. split; [exact H0|].
    unfold inject_Z in H2. simpl in H2. exact H2. }
  unfold scoreSecurity, Tally.result. cbn [feedback].
  unfold security_tally. rewrite Hpaths, count_security_spec. fold operations.
  cbv zeta beta iota. rewrite Hops, Hwith. cbn [andb].
  match goal with
  | |- context [if ?b then _ else _] => destruct b
  end;
    cbn [Tally.feedback Tally.award Tally.finding Tally.suggest];
    rewrite ?in_app_iff; simpl; tauto.
Qed.

Lemma security_override_earns_proportional_credit_witness :
  count_security Samples.half_public_paths = (1%nat, 2%nat)
  /\ near (operation_security_term 1 2) (2 * 1 / 2)
  /\ In "1/2 operations have specific security requirements"
       (feedback (scoreSecurity Samples.half_public_document))
  /\ score (scoreSecurity Samples.half_public_document) = of_Z 1.
Proof.
  destruct (security_override_earns_proportional_credit Samples.half_public_document
              Samples.half_public_paths Samples.public_operation)
    as (_ & Hcount & _ & _ & _ & Hnear & _ & Hfinding).
  - reflexivity.
  - simpl. now left.
  - reflexivity.
  - split; [exact Hcount|]. split; [exact Hnear|]. split; [exact Hfinding|].
    vm_compute. reflexivity.
Defined.

End OperationSecurity.

(** * Further properties of the evaluators, the aggregator and the validator *)

(** ** Ranges *)

Module Ranges.

Import JS Spec Spec2 JSFacts Evaluators LoopFacts Bounds Results.

(** X1.  Whatever the document (an empty paths mapping included), the five
    evaluators other than Schema & Types and Paths & Operations return an
    integral score between 0 and their maximum and an integral percentage
    between 0 and 100. *)
Theorem five_criteria_always_in_range (document : Document.t) :
  well_scored 20 (scoreDescriptions document)
  /\ well_scored 15 (scoreResponseCodes document)
  /\ well_scored 10 (scoreExamples document)
  /\ well_scored 10 (scoreSecurity document)
  /\ well_scored 10 (scoreBestPractices document).
Proof.
  split; [apply scoreDescriptions_well_scored|].
  split; [apply scoreResponseCodes_well_scored|].
  split; [apply scoreExamples_well_scored|].
  split; [apply scoreSecurity_well_scored|apply scoreBestPractices_well_scored].
Qed.

(** X2.  For a document whose paths mapping is absent or has at least one
    path, the seven results are in range for the maxima 20, 20, 15, 15, 10,
    10, 10, and the total is an integer between 0 and 100. *)
Theorem seven_criteria_and_total_in_range (document : Document.t) :
  paths_absent_or_inhabited document ->
  Forall2 well_scored maxima (criteria (Reporter.scoreSpec document))
  /\ within 0 100 (totalScore (Reporter.scoreSpec document))
  /\ integral (totalScore (Reporter.scoreSpec document)).
Proof.
  intro H. split.
  - exact (evaluate_well_scored document H).
  - exact (proj2 (totalScore_within document H)).
Qed.

Lemma seven_criteria_and_total_in_range_witness :
  Forall2 well_scored maxima (criteria (Reporter.scoreSpec Samples.documented))
  /\ within 0 100 (totalScore (Reporter.scoreSpec Samples.documented))
  /\ integral (totalScore (Reporter.scoreSpec Samples.documented)).
Proof.
  apply (seven_criteria_and_total_in_range Samples.documented).
  unfold paths_absent_or_inhabited. simpl. discriminate.
Defined.

(** X3.  Without named schemas Schema & Types scores at most 5 of its 20
    points: only the schema-usage term is left. *)
Theorem no_schemas_at_most_five (document : Document.t) :
  named_schemas document = [] ->
  scores_at_most 5 (scoreSchemaAndTypes document)
  /\ In "No schema definitions found" (feedback (scoreSchemaAndTypes document))
  /\ In "Define reusable schemas in components.schemas"
       (suggestions (scoreSchemaAndTypes document))
  /\ In "Increase use of strongly-typed schemas throughout the API"
       (suggestions (scoreSchemaAndTypes document)).
Proof.
  intro Hnone.
  assert (Hraw : within 0 5 (Tally.score (schemaAndTypes_tally document))
                 /\ In "No schema definitions found"
                      (Tally.feedback (schemaAndTypes_tally document))
                 /\ In "Define reusable schemas in components.schemas"
                      (Tally.suggestions (schemaAndTypes_tally document))
                 /\ In "Increase use of strongly-typed schemas throughout the API"
                      (Tally.suggestions (schemaAndTypes_tally document))).
  { unfold schemaAndTypes_tally. rewrite Hnone. simpl.
    set (usage := match Document.paths document with
                  | Some paths => count_schema_usage paths
                  | None => (0%nat, 0%nat)
                  end).
    destruct usage as [operationsWithSchemas totalOperations].
    destruct (0 <? totalOperations)%nat eqn:Hops.
    - pose proof (schema_usage_term_within operationsWithSchemas totalOperations
                    (proj1 (Nat.ltb_lt _ _) Hops)) as Hu.
      destruct (schema_usage_term operationsWithSchemas totalOperations) as [q|];
        [|destruct Hu].
      simpl in Hu. simpl.
      assert (Hlt : Qle_bool (inject_Z 20 * (1 # 2)) (inject_Z 0 + q) = false).
      { destruct (Qle_bool (inject_Z 20 * (1 # 2)) (inject_Z 0 + q)) eqn:E;
          [|reflexivity].
        apply Qle_bool_iff in E. unfold inject_Z in E. lra. }
      rewrite Hlt. simpl. unfold inject_Z. repeat split; try lra; auto.
    - simpl. unfold inject_Z. repeat split; try lra; auto. }
  destruct Hraw as (Hw & Hf & Hs1 & Hs2).
  split; [|split; [exact Hf|split; [exact Hs1|exact Hs2]]].
  destruct (round_within 5 _ Hw) as (z & Hz & Hrange).
  exists z. split; [exact Hz|exact Hrange].
Qed.

Lemma no_schemas_at_most_five_witness :
  scores_at_most 5 (scoreSchemaAndTypes (Samples.minimal "3.0.3" "Success")).
Proof.
  exact (proj1 (no_schemas_at_most_five (Samples.minimal "3.0.3" "Success") eq_refl)).
Defined.

End Ranges.

(** ** Path names and patterns *)

Module PathNames.

Import JS Spec Spec2 Evaluators LoopFacts Redundancy.

Lemma kebab_char_excludes (c : ascii) :
  (Ascii.eqb "_" c || Str.between "A" "Z" c)%bool = true -> kebab_char c = false.
Proof.
  destruct c as [[|] [|] [|] [|] [|] [|] [|] [|]]; vm_compute; congruence.
Qed.

Lemma existsc_forallc (p q : ascii -> bool) (s : string) :
  (forall c, p c = true -> q c = false) ->
  Str.existsc p s = true -> Str.forallc q s = false.
Proof.
  intro Hpq. induction s as [|c s IH]; simpl; [discriminate|].
  destruct (p c) eqn:Hp; simpl.
  - intros _. now rewrite (Hpq c Hp).
  - intro H. rewrite (IH H). apply andb_false_r.
Qed.

(** The tests for an underscore and for an upper-case letter never decide:
    a segment that fails one of them fails the pattern as well. *)
Lemma is_kebab_subsumes (segment : string) :
  (Str.includes_underscore segment || Str.has_uppercase segment
   || negb (Str.is_kebab segment))%bool
  = negb (Str.is_kebab segment).
Proof.
  destruct (Str.includes_underscore segment) eqn:Hu; simpl.
  - unfold Str.is_kebab. fold kebab_char.
    rewrite (existsc_forallc (Ascii.eqb "_") kebab_char segment); [|  |exact Hu].
    + now rewrite andb_false_r.
    + intros c Hc. apply kebab_char_excludes. now rewrite Hc.
  - destruct (Str.has_uppercase segment) eqn:Hc; simpl; [|reflexivity].
    unfold Str.is_kebab. fold kebab_char.
    rewrite (existsc_forallc (Str.between "A" "Z") kebab_char segment); [| |exact Hc].
    + now rewrite andb_false_r.
    + intros c Hb. apply kebab_char_excludes. rewrite Hb. apply orb_true_r.
Qed.

Lemma flag_loop (segments : list string) (flag : bool) :
  forEach segments flag (fun isWellNamed segment =>
    if (Str.includes_underscore segment || Str.has_uppercase segment
        || negb (Str.is_kebab segment))%bool
    then false else isWellNamed)
  = (flag && forallb Str.is_kebab segments)%bool.
Proof.
  unfold forEach. revert flag.
  induction segments as [|segment segments IH]; intro flag; simpl.
  - now rewrite andb_true_r.
  - rewrite IH, is_kebab_subsumes.
    destruct (Str.is_kebab segment), flag; reflexivity.
Qed.

(** X4.  A path is well named exactly when each of its segments that is
    neither empty nor opened by a brace is made of lower-case letters,
    digits and hyphens only. *)
Theorem well_named_iff_kebab_segments (path : string) :
  isWellNamed path = true <->
  forall segment,
    In segment (Str.split "/" path) ->
    segment <> "" -> Str.startsWith "{" segment = false ->
    Str.forallc kebab_char segment = true.
Proof.
  unfold isWellNamed. rewrite flag_loop. simpl andb.
  rewrite forallb_forall. unfold pathSegments. split.
  - intros H segment Hin Hne Hbrace.
    assert (Hseg : Str.is_kebab segment = true).
    { apply H, filter_In. split; [exact Hin|].
      apply String.eqb_neq in Hne. now rewrite Hne, Hbrace. }
    unfold Str.is_kebab in Hseg. apply andb_prop in Hseg. destruct Hseg as [_ Hall].
    exact Hall.
  - intros H segment Hin. apply filter_In in Hin. destruct Hin as [Hin Hkeep].
    apply andb_prop in Hkeep. destruct Hkeep as [Hne Hbrace].
    apply negb_true_iff in Hne, Hbrace. apply String.eqb_neq in Hne.
    pose proof (H segment Hin Hne Hbrace) as Hall.
    unfold Str.is_kebab. fold kebab_char. rewrite Hall.
    apply String.eqb_neq in Hne. now rewrite Hne.
Qed.

Lemma append_String (c : ascii) (s t : string) :
  (String c s ++ t)%string = String c (s ++ t)%string.
Proof. reflexivity. Qed.

(** Scanning goes through a prefix without opening brace unchanged. *)
Lemma replace_params_prefix (prefix rest : string) :
  no_open_brace prefix = true ->
  Str.replace_params 0 (prefix ++ rest)%string
  = (prefix ++ Str.replace_params 0 rest)%string.
Proof.
  induction prefix as [|c prefix IH]; intro H; [reflexivity|].
  simpl in H. apply andb_prop in H. destruct H as [Hc Hrest].
  apply negb_true_iff in Hc.
  rewrite append_String. cbn [Str.replace_params]. rewrite Hc, (IH Hrest).
  reflexivity.
Qed.

(** The match of a parameter name and its closing brace. *)
Lemma param_tail_name (name rest : string) (seen : nat) :
  no_close_brace name = true ->
  (0 < seen + String.length name)%nat ->
  Str.param_tail seen (name ++ String "}" rest)%string
  = Some (S (seen + String.length name)).
Proof.
  revert seen. induction name as [|c name IH]; intros seen Hname Hpos.
  - simpl. destruct seen; [simpl in Hpos; lia|]. f_equal. simpl. lia.
  - simpl in Hname. apply andb_prop in Hname. destruct Hname as [Hc Hname].
    apply negb_true_iff in Hc.
    rewrite append_String. cbn [Str.param_tail]. rewrite Hc.
    rewrite (IH (S seen) Hname); [|simpl; lia]. f_equal. simpl. lia.
Qed.

Lemma replace_params_skip (skipped rest : string) :
  Str.replace_params (String.length skipped) (skipped ++ rest)%string
  = Str.replace_params 0 rest.
Proof.
  induction skipped as [|c skipped IH]; [reflexivity|].
  rewrite append_String. cbn [String.length Str.replace_params]. exact IH.
Qed.

Lemma length_append (s t : string) :
  String.length (s ++ t)%string = (String.length s + String.length t)%nat.
Proof.
  induction s as [|c s IH]; simpl; [reflexivity|]. now rewrite IH.
Qed.

Lemma append_assoc (s t u : string) :
  ((s ++ t) ++ u)%string = (s ++ (t ++ u))%string.
Proof.
  induction s as [|c s IH]; simpl; [reflexivity|]. now rewrite IH.
Qed.

(** X5.  Normalising a path rewrites a parameter segment to the placeholder
    whatever the parameter is called: after a prefix without opening brace,
    a non-empty name without closing brace between braces becomes [{id}],
    and the rest of the path is normalised in turn. *)
Theorem parameter_name_is_forgotten (prefix name rest : string) :
  no_open_brace prefix = true ->
  no_close_brace name = true ->
  name <> "" ->
  normalizedPath (prefix ++ "{" ++ name ++ "}" ++ rest)%string
  = (prefix ++ "{id}" ++ normalizedPath rest)%string.
Proof.
  intros Hprefix Hname Hne. unfold normalizedPath.
  rewrite (replace_params_prefix prefix _ Hprefix). f_equal.
  change ("{" ++ name ++ "}" ++ rest)%string
    with (String "{" (name ++ String "}" rest))%string.
  cbn [Str.replace_params]. simpl Ascii.eqb. cbv iota.
  assert (Hpos : (0 < 0 + String.length name)%nat).
  { destruct name; [congruence|simpl; lia]. }
  rewrite (param_tail_name name rest 0 Hname Hpos). simpl plus.
  change (name ++ String "}" rest)%string with (name ++ ("}" ++ rest))%string.
  rewrite <- append_assoc.
  replace (S (String.length name)) with (String.length (name ++ "}")%string)
    by (rewrite length_append; simpl; lia).
  rewrite replace_params_skip. reflexivity.
Qed.

Lemma parameter_name_is_forgotten_witness :
  normalizedPath "/pets/{petId}/toys" = "/pets/{id}/toys"
  /\ normalizedPath "/pets/{id}/toys" = "/pets/{id}/toys".
Proof.
  split.
  - exact (parameter_name_is_forgotten "/pets/" "petId" "/toys"
             eq_refl eq_refl ltac:(discriminate)).
  - exact (parameter_name_is_forgotten "/pets/" "id" "/toys"
             eq_refl eq_refl ltac:(discriminate)).
Defined.

End PathNames.

(** ** Paths with the same pattern *)

Module SamePattern.

Import JS Spec Spec2 Evaluators LoopFacts Redundancy.

Lemma nodup_length_le (l : list string) :
  (List.length (nodup string_dec l) <= List.length l)%nat.
Proof.
  induction l as [|x l IH]; simpl; [lia|].
  destruct (in_dec string_dec x l); simpl; lia.
Qed.

(** A list that repeats a value has fewer distinct values than elements. *)
Lemma repeated_value_distinct {A : Type} (f : A -> string) (l : list A) (a b : A) :
  In a l -> In b l -> a <> b -> f a = f b ->
  (distinct (map f l) < List.length l)%nat.
Proof.
  unfold distinct. induction l as [|x l IH]; intros Ha Hb Hab Hf; [destruct Ha|].
  simpl. pose proof (nodup_length_le (map f l)) as Hle. rewrite length_map in Hle.
  destruct (in_dec string_dec (f x) (map f l)) as [Hin|Hout]; [lia|].
  simpl. destruct Ha as [->|Ha], Hb as [->|Hb].
  - congruence.
  - exfalso. apply Hout. rewrite Hf. now apply in_map.
  - exfalso. apply Hout. rewrite <- Hf. now apply in_map.
  - specialize (IH Ha Hb Hab Hf). lia.
Qed.

(** X6.  Two different paths that both define a scored operation and have
    the same normalised pattern cost the document the no-redundancy bonus:
    the overlap count is positive, it is reported as a finding, a review is
    suggested and nothing is added to the score. *)
Theorem same_pattern_costs_bonus (document : Document.t)
    (document_paths : Dict.t (option PathItem.t)) (first second : string) :
  Document.paths document = Some document_paths ->
  In first (Dict.keys document_paths) ->
  In second (Dict.keys document_paths) ->
  first <> second ->
  has_scored_method document_paths first = true ->
  has_scored_method document_paths second = true ->
  normalizedPath first = normalizedPath second ->
  (0 < overlappingPaths document_paths)%Z
  /\ In (string_of_Z (overlappingPaths document_paths)
         ++ " potentially overlapping paths detected")%string
       (feedback (scorePathsAndOperations document))
  /\ In "Review path structure for redundancy"
       (suggestions (scorePathsAndOperations document))
  /\ score (scorePathsAndOperations document)
     = round (Tally.score (naming_and_crud_tally document_paths)).
Proof.
  intros Hpaths Hfirst Hsecond Hdiff Hm1 Hm2 Hsame.
  assert (Hoverlap : (0 < overlappingPaths document_paths)%Z).
  { rewrite overlappingPaths_spec. unfold scored_patterns.
    pose proof (repeated_value_distinct normalizedPath
                  (filter (has_scored_method document_paths) (Dict.keys document_paths))
                  first second) as Hlt.
    pose proof (filter_length_le (has_scored_method document_paths)
                  (Dict.keys document_paths)) as Hle.
    assert (In first (filter (has_scored_method document_paths)
                        (Dict.keys document_paths))) by (apply filter_In; now split).
    assert (In second (filter (has_scored_method document_paths)
                         (Dict.keys document_paths))) by (apply filter_In; now split).
    specialize (Hlt H H0 Hdiff Hsame). lia. }
  split; [exact Hoverlap|].
  unfold scorePathsAndOperations. rewrite Hpaths.
  unfold pathsAndOperations_tally. cbv zeta.
  assert (Hne : (overlappingPaths document_paths =? 0)%Z = false)
    by (apply Z.eqb_neq; lia).
  rewrite Hne.
  pose proof (naming_and_crud_suggestions document_paths) as Hnone.
  match goal with
  | |- context [if ?b then _ else _] => destruct b
  end; simpl; rewrite ?Hnone; simpl.
  - split; [apply in_or_app; right; now left|]. split; [now left|reflexivity].
  - split; [apply in_or_app; right; now left|]. split; [now left|reflexivity].
Qed.

Lemma same_pattern_costs_bonus_witness :
  (0 < overlappingPaths Samples2.same_pattern_paths)%Z
  /\ In "Review path structure for redundancy"
       (suggestions (scorePathsAndOperations
                       (Samples.document_with (Some Samples2.same_pattern_paths) None))).
Proof.
  destruct (same_pattern_costs_bonus
              (Samples.document_with (Some Samples2.same_pattern_paths) None)
              Samples2.same_pattern_paths "/pets/{id}" "/pets/{petId}")
    as (Hpos & _ & Hsuggest & _).
  - reflexivity.
  - simpl. now left.
  - simpl. right. now left.
  - discriminate.
  - reflexivity.
  - reflexivity.
  - reflexivity.
  - split; [exact Hpos|exact Hsuggest].
Defined.

End SamePattern.

(** ** Operations *)

Module Operations.

Import JS Spec Spec2 JSFacts Evaluators LoopFacts Bounds Results OperationSecurity.

(** A loop that raises a counter by one at each element. *)
Lemma fold_counter_exact {A St : Type} (m : St -> nat) (body : St -> A -> St)
    (l : list A) (s : St) :
  (forall s x, m (body s x) = S (m s)) ->
  m (fold_left body l s) = (m s + List.length l)%nat.
Proof.
  intro Hbody. revert s. induction l as [|x l IH]; intro s; simpl; [lia|].
  rewrite IH, Hbody. lia.
Qed.

Lemma count_schema_usage_total (paths : Dict.t (option PathItem.t)) :
  snd (count_schema_usage paths) = List.length (operations_of scored_methods paths).
Proof.
  unfold count_schema_usage. rewrite forEachOperation_operations.
  rewrite (fold_counter_exact snd); [reflexivity|].
  intros [w t] operation. reflexivity.
Qed.

Lemma count_tags_total (paths : Dict.t (option PathItem.t)) :
  snd (count_tags paths) = List.length (operations_of scored_methods paths).
Proof.
  unfold count_tags. rewrite forEachOperation_operations.
  rewrite (fold_counter_exact snd); [reflexivity|].
  intros [w t] operation. reflexivity.
Qed.

Lemma count_responses_total (paths : Dict.t (option PathItem.t)) :
  responseOperations (count_responses paths)
  = List.length (operations_of scored_methods paths).
Proof.
  unfold count_responses. rewrite forEachOperation_operations.
  rewrite (fold_counter_exact responseOperations); reflexivity.
Qed.

Lemma describe_operation_total (c : DescriptionCounts) (operation : Operation.t) :
  totalOperations (describe_operation c operation) = S (totalOperations c).
Proof.
  unfold describe_operation.
  destruct (match Operation.parameters operation with
            | Some _ => _
            | None => _
            end) as [pw pt].
  destruct (forEach (Dict.values (Operation.responses operation)) _ _) as [rw rt].
  reflexivity.
Qed.

Lemma count_descriptions_total (paths : Dict.t (option PathItem.t)) :
  totalOperations (count_descriptions paths)
  = List.length (operations_of all_methods paths).
Proof.
  unfold count_descriptions, operations_of, forEach.
  change (List.length _) with
    (totalOperations (mkDescriptionCounts 0 0 0 0 0 0 0)
     + List.length
         (flat_map
            (fun pathItem =>
               match pathItem with
               | Some pathItem =>
                   flat_map
                     (fun method =>
                        match PathItem.method pathItem method with
                        | Some operation => [operation]
                        | None => []
                        end) all_methods
               | None => []
               end) (Dict.values paths)))%nat.
  generalize (mkDescriptionCounts 0 0 0 0 0 0 0).
  induction (Dict.values paths) as [|pathItem l IH]; intro c; [simpl; lia|].
  cbn [fold_left flat_map]. rewrite IH, length_app.
  destruct pathItem as [pathItem|]; [|simpl; lia].
  assert (Hitem : forall methods c0,
             totalOperations (forEachMethod methods pathItem c0 describe_operation)
             = (totalOperations c0
                + List.length
                    (flat_map
                       (fun method =>
                          match PathItem.method pathItem method with
                          | Some operation => [operation]
                          | None => []
                          end) methods))%nat).
  { unfold forEachMethod, forEach.
    induction methods as [|method methods IHm]; intro c0; [simpl; lia|].
    cbn [fold_left flat_map]. rewrite IHm, length_app.
    destruct (PathItem.method pathItem method); simpl;
      [rewrite describe_operation_total|]; lia. }
  rewrite Hitem.
  destruct (truthy_string (PathItem.description pathItem)); simpl; lia.
Qed.

Lemma operations_of_app (first second : list string)
    (paths : Dict.t (option PathItem.t)) :
  List.length (operations_of (first ++ second) paths)
  = (List.length (operations_of first paths)
     + List.length (operations_of second paths))%nat.
Proof.
  unfold operations_of.
  induction (Dict.values paths) as [|pathItem l IH]; [reflexivity|].
  cbn [flat_map]. rewrite !length_app, IH.
  destruct pathItem as [pathItem|]; [|simpl; lia].
  rewrite flat_map_app, length_app. lia.
Qed.

(** X7.  The evaluators agree on the number of operations they score: the
    totals of Schema & Types, Response Codes, Security and Best Practices
    are all the number of [get], [post], [put], [patch] and [delete]
    operations of the document; the total of Descriptions also counts
    [options], [head] and [trace] operations and is never smaller. *)
Theorem operation_totals_agree (paths : Dict.t (option PathItem.t)) :
  snd (count_schema_usage paths) = List.length (operations_of scored_methods paths)
  /\ responseOperations (count_responses paths)
     = List.length (operations_of scored_methods paths)
  /\ snd (count_security paths) = List.length (operations_of scored_methods paths)
  /\ snd (count_tags paths) = List.length (operations_of scored_methods paths)
  /\ totalOperations (count_descriptions paths)
     = (List.length (operations_of scored_methods paths)
        + List.length (operations_of ["options"; "head"; "trace"] paths))%nat.
Proof.
  split; [apply count_schema_usage_total|].
  split; [apply count_responses_total|].
  split; [now rewrite count_security_spec|].
  split; [apply count_tags_total|].
  rewrite count_descriptions_total.
  exact (operations_of_app scored_methods ["options"; "head"; "trace"] paths).
Qed.

End Operations.

(** ** Response codes and examples *)

Module Responses.

Import JS Spec Spec2 JSFacts Evaluators LoopFacts Bounds Results OperationSecurity.

(** Rounding a number equal to an integer gives that integer. *)
Lemma round_exact (m : Z) (x : number) :
  within (inject_Z m) (inject_Z m) x -> round x = of_Z m.
Proof.
  destruct x as [q|]; cbn [within round]; [|tauto]. intros [Hlo Hhi].
  unfold of_Z, inject_Z at 1 2. do 2 f_equal.
  pose proof (Qfloor_le (q + (1 # 2))) as Hfloor.
  pose proof (Qlt_floor (q + (1 # 2))) as Hceil.
  rewrite inject_Z_plus in Hceil. change (inject_Z 1) with 1 in Hceil.
  assert (H1 : (Qfloor (q + (1 # 2)) < m + 1)%Z).
  { rewrite Zlt_Qlt, inject_Z_plus. change (inject_Z 1) with 1. lra. }
  assert (H2 : (m < Qfloor (q + (1 # 2)) + 1)%Z).
  { rewrite Zlt_Qlt, inject_Z_plus. change (inject_Z 1) with 1. lra. }
  lia.
Qed.

(** The percentage of a full score. *)
Lemma full_percentage (m : nat) (x : number) :
  (0 < m)%nat ->
  within (inject_Z (Z.of_nat m)) (inject_Z (Z.of_nat m)) x ->
  within (inject_Z 100) (inject_Z 100) (mul (div x (of_nat m)) (of_nat 100)).
Proof.
  intro Hm. destruct x as [q|]; simpl; [|tauto]. intros [Hlo Hhi].
  pose proof (inject_nat_pos m Hm) as Hp.
  destruct (Qeq_bool (inject_Z (Z.of_nat m)) 0) eqn:E.
  { apply Qeq_bool_eq in E. lra. }
  simpl.
  assert (H1 : q / inject_Z (Z.of_nat m) == 1).
  { assert (Hq : q == inject_Z (Z.of_nat m)) by lra. rewrite Hq. field. lra. }
  rewrite H1. unfold inject_Z. split; lra.
Qed.

Lemma starts_with_2_is_no_error (code : string) :
  Str.startsWith "2" code = true ->
  (Str.startsWith "4" code || Str.startsWith "5" code)%bool = false.
Proof.
  unfold Str.startsWith. destruct code as [|c code]; [discriminate|].
  destruct c as [[|] [|] [|] [|] [|] [|] [|] [|]]; vm_compute; congruence.
Qed.

(** Two tests that exclude each other and both succeed somewhere in a list
    need two elements. *)
Lemma two_witnesses {A : Type} (p q : A -> bool) (l : list A) :
  (forall x, p x = true -> q x = false) ->
  existsb p l = true -> existsb q l = true -> (1 <? List.length l)%nat = true.
Proof.
  intros Hpq Hp Hq. destruct l as [|x [|y l]]; simpl in *; try discriminate.
  - rewrite orb_false_r in Hp, Hq. rewrite (Hpq x Hp) in Hq. discriminate.
  - reflexivity.
Qed.

Lemma fold_inspect_full (l : list Operation.t) (c : ResponseCounts) :
  forallb has_success_and_error l = true ->
  operationsWithSuccess (fold_left inspect_responses l c)
  = (operationsWithSuccess c + List.length l)%nat
  /\ operationsWithErrors (fold_left inspect_responses l c)
     = (operationsWithErrors c + List.length l)%nat
  /\ operationsWithMultipleResponses (fold_left inspect_responses l c)
     = (operationsWithMultipleResponses c + List.length l)%nat
  /\ responseOperations (fold_left inspect_responses l c)
     = (responseOperations c + List.length l)%nat.
Proof.
  revert c. induction l as [|operation l IH]; intros c Hall; simpl.
  - repeat split; lia.
  - simpl in Hall. apply andb_prop in Hall. destruct Hall as [Hop Hall].
    destruct (IH (inspect_responses c operation) Hall) as (H1 & H2 & H3 & H4).
    rewrite H1, H2, H3, H4. clear IH H1 H2 H3 H4.
    unfold has_success_and_error in Hop. apply andb_prop in Hop.
    destruct Hop as [Hs He].
    pose proof (two_witnesses _ _ _ starts_with_2_is_no_error Hs He) as Hm.
    unfold inspect_responses. cbv zeta. rewrite Hs, He, Hm. simpl.
    repeat split; lia.
Qed.

Ltac sum_exact :=
  cbn [Tally.score Tally.suggest Tally.finding Tally.award Tally.start];
  eapply within_weaken;
  [ repeat (eapply within_add); first [apply within_of_nat | eassumption]
  | apply Qle_by_computation; vm_compute; reflexivity
  | apply Qle_by_computation; vm_compute; reflexivity ].

(** X8.  When the document has at least one scored operation and each of
    them declares a [2xx] response and a [4xx] or [5xx] response, Response
    Codes gives its full 15 points and 100%: two such responses already make
    the operation one with multiple response codes. *)
Theorem success_and_error_everywhere (document : Document.t)
    (paths : Dict.t (option PathItem.t)) :
  Document.paths document = Some paths ->
  operations_of scored_methods paths <> [] ->
  forallb has_success_and_error (operations_of scored_methods paths) = true ->
  score (scoreResponseCodes document) = of_Z 15
  /\ percentage (scoreResponseCodes document) = of_Z 100.
Proof.
  intros Hpaths Hne Hall.
  assert (Hraw : within 15 15 (Tally.score (responseCodes_tally paths))).
  { unfold responseCodes_tally, count_responses.
    rewrite forEachOperation_operations.
    destruct (fold_inspect_full _ (mkResponseCounts 0 0 0 0 StringSet.empty) Hall)
      as (H1 & H2 & H3 & H4).
    cbv zeta. rewrite H1, H2, H3, H4. simpl plus.
    set (n := List.length (operations_of scored_methods paths)).
    assert (Hn : (0 < n)%nat).
    { unfold n. destruct (operations_of scored_methods paths); [congruence|simpl; lia]. }
    pose proof (ProperlyTyped.full_share n 6 Hn) as Hs6.
    pose proof (ProperlyTyped.full_share n 3 Hn) as Hs3.
    apply Nat.ltb_lt in Hn. rewrite Hn.
    peel; sum_exact. }
  unfold scoreResponseCodes. rewrite Hpaths. unfold Tally.result; simpl.
  split.
  - exact (round_exact 15 _ Hraw).
  - apply (round_exact 100). apply (full_percentage 15); [lia|exact Hraw].
Qed.

Lemma success_and_error_everywhere_witness :
  score (scoreResponseCodes Samples2.careful_document) = of_Z 15
  /\ percentage (scoreResponseCodes Samples2.careful_document) = of_Z 100.
Proof.
  apply (success_and_error_everywhere Samples2.careful_document
           [("/pets", Some (Samples.only_get Samples2.careful_operation))]).
  - reflexivity.
  - simpl. discriminate.
  - reflexivity.
Defined.

(** X9.  Operations declared under [head], [options] or [trace] are not
    scored: when no path item defines [get], [post], [put], [patch] or
    [delete], Response Codes and Examples & Samples score 0 with no finding,
    and the operation loops of Schema & Types, Security and Best Practices
    count nothing. *)
Theorem unscored_methods_are_ignored (document : Document.t)
    (paths : Dict.t (option PathItem.t)) :
  Document.paths document = Some paths ->
  operations_of scored_methods paths = [] ->
  (score (scoreResponseCodes document) = of_Z 0
   /\ feedback (scoreResponseCodes document) = [])
  /\ (score (scoreExamples document) = of_Z 0
      /\ feedback (scoreExamples document) = [])
  /\ count_schema_usage paths = (0%nat, 0%nat)
  /\ count_security paths = (0%nat, 0%nat)
  /\ count_tags paths = (0%nat, 0%nat).
Proof.
  intros Hpaths Hnone.
  assert (Hr : count_responses paths = mkResponseCounts 0 0 0 0 StringSet.empty).
  { unfold count_responses. now rewrite forEachOperation_operations, Hnone. }
  assert (He : count_examples paths = mkExampleCounts 0 0 0 0).
  { unfold count_examples. now rewrite forEachOperation_operations, Hnone. }
  split; [|split; [|split; [|split]]].
  - unfold scoreResponseCodes. rewrite Hpaths.
    unfold responseCodes_tally. rewrite Hr. split; reflexivity.
  - unfold scoreExamples. rewrite Hpaths.
    unfold examples_tally. rewrite He. split; reflexivity.
  - unfold count_schema_usage. now rewrite forEachOperation_operations, Hnone.
  - unfold count_security. now rewrite forEachOperation_operations, Hnone.
  - unfold count_tags. now rewrite forEachOperation_operations, Hnone.
Qed.

Lemma unscored_methods_are_ignored_witness :
  score (scoreResponseCodes (Samples.document_with (Some Samples.head_only_paths) None))
  = of_Z 0
  /\ score (scoreExamples (Samples.document_with (Some Samples.head_only_paths) None))
     = of_Z 0.
Proof.
  destruct (unscored_methods_are_ignored
              (Samples.document_with (Some Samples.head_only_paths) None)
              Samples.head_only_paths eq_refl eq_refl)
    as ((Hcodes & _) & (Hexamples & _) & _).
  split; [exact Hcodes|exact Hexamples].
Defined.

Lemma inspect_examples_bodies (c : ExampleCounts) (operation : Operation.t) :
  totalOperationsWithBodies (inspect_examples c operation)
  = (totalOperationsWithBodies c + (if has_body operation then 1 else 0))%nat.
Proof.
  unfold inspect_examples.
  apply (forEach_invariant
           (fun s => totalOperationsWithBodies s
                     = (totalOperationsWithBodies c
                        + (if has_body operation then 1 else 0))%nat)).
  - unfold has_body.
    destruct (Operation.requestBody operation) as [[ref|content]|]; simpl; lia.
  - intros s [ref|description [content|]] Hs; simpl; exact Hs.
Qed.

Lemma fold_inspect_bodies (l : list Operation.t) (c : ExampleCounts) :
  totalOperationsWithBodies (fold_left inspect_examples l c)
  = (totalOperationsWithBodies c + List.length (filter has_body l))%nat.
Proof.
  revert c. induction l as [|operation l IH]; intro c; simpl; [lia|].
  rewrite IH, inspect_examples_bodies.
  destruct (has_body operation); simpl; lia.
Qed.

(** X10.  A document none of whose scored operations has an inline request
    body scores at most 5 of the 10 points of Examples & Samples: the
    request-example term is not awarded at all. *)
Theorem no_request_body_at_most_five (document : Document.t)
    (paths : Dict.t (option PathItem.t)) :
  Document.paths document = Some paths ->
  filter has_body (operations_of scored_methods paths) = [] ->
  scores_at_most 5 (scoreExamples document).
Proof.
  intros Hpaths Hnone.
  assert (Hraw : within 0 5 (Tally.score (examples_tally paths))).
  { unfold examples_tally.
    destruct (count_examples_consistent paths) as (H1 & H2).
    assert (Hb : totalOperationsWithBodies (count_examples paths) = 0%nat).
    { unfold count_examples. rewrite forEachOperation_operations, fold_inspect_bodies.
      now rewrite Hnone. }
    cbv zeta. rewrite Hb. change (0 <? 0)%nat with false. cbv iota.
    peel; sum_bound. }
  unfold scoreExamples. rewrite Hpaths.
  destruct (round_within 5 _ Hraw) as (z & Hz & Hrange).
  exists z. split; [exact Hz|exact Hrange].
Qed.

Lemma no_request_body_at_most_five_witness :
  scores_at_most 5 (scoreExamples Samples.documented).
Proof.
  apply (no_request_body_at_most_five Samples.documented
           [("/pets", Some (Samples.only_get Samples.documented_operation))]);
    reflexivity.
Defined.

End Responses.

(** ** Security *)

Module SecurityFacts.

Import JS Spec Spec2 JSFacts Evaluators LoopFacts Bounds Results OperationSecurity.

Lemma global_requirements_false (document : Document.t) :
  global_requirements document = false <->
  Document.security document = None \/ Document.security document = Some [].
Proof.
  unfold global_requirements.
  destruct (Document.security document) as [[|r rs]|]; simpl; split;
    intros; try tauto; try discriminate; try (now right); try (now left).
  destruct H as [H|H]; discriminate H.
Qed.

Lemma no_schemes (document : Document.t) :
  (0 <? List.length (Dict.keys (securitySchemes document)))%nat = false <->
  securitySchemes document = [].
Proof.
  rewrite LoopFacts.keys_length.
  destruct (securitySchemes document); split; intro H; try reflexivity;
    discriminate H.
Qed.

Lemma scheme_term_positive (n : nat) :
  (0 < n)%nat -> exists q, min (of_nat 5) (of_nat (n * 2)) = Num q /\ 0 < q /\ q <= 5.
Proof.
  intro Hn. unfold min, of_nat, of_Z.
  pose proof (inject_nat_pos (n * 2) ltac:(lia)) as Hp.
  destruct (Qle_bool (inject_Z (Z.of_nat 5)) (inject_Z (Z.of_nat (n * 2)))) eqn:E;
    eexists; (split; [reflexivity|]).
  - unfold inject_Z; simpl. split; lra.
  - split; [exact Hp|].
    destruct (Qlt_le_dec 5 (inject_Z (Z.of_nat (n * 2)))) as [Hgt|Hle]; [|exact Hle].
    exfalso. assert (Hle : inject_Z (Z.of_nat 5) <= inject_Z (Z.of_nat (n * 2))).
    { unfold inject_Z at 1. simpl. lra. }
    apply Qle_bool_iff in Hle. congruence.
Qed.

(** The tally before the operations loop: zero when neither a scheme nor a
    global requirement is declared, positive otherwise; the closing
    suggestions are not pushed yet. *)
Lemma schemes_tally_cases (document : Document.t) :
  ~ In "Implement authentication and authorization schemes"
      (Tally.suggestions (schemes_tally document))
  /\ ((securitySchemes document = [] /\ global_requirements document = false
       /\ Tally.score (schemes_tally document) = of_nat 0)
      \/ (~ (securitySchemes document = [] /\ global_requirements document = false)
          /\ exists q, Tally.score (schemes_tally document) = Num q /\ 0 < q /\ q <= 8)).
Proof.
  unfold schemes_tally. fold (global_requirements document). cbv zeta.
  destruct (0 <? List.length (Dict.keys (securitySchemes document)))%nat eqn:Hs.
  - apply Nat.ltb_lt in Hs.
    destruct (scheme_term_positive _ Hs) as (q & Hq & Hpos & Hle).
    assert (Hne : securitySchemes document <> []).
    { intro E. rewrite E in Hs. simpl in Hs. lia. }
    destruct (global_requirements document);
      cbn [Tally.score Tally.suggestions Tally.finding Tally.award Tally.suggest
           Tally.start];
      rewrite Hq; simpl.
    + split; [intros []|]. right. split; [tauto|].
      eexists. split; [reflexivity|]. unfold inject_Z. split; lra.
    + split; [intros []|]. right. split; [tauto|].
      eexists. split; [reflexivity|]. unfold inject_Z. split; lra.
  - apply no_schemes in Hs.
    destruct (global_requirements document); simpl.
    + split; [intros [H|[]]; discriminate H|]. right. split; [intros [_ H]; discriminate H|].
      eexists. split; [reflexivity|]. unfold inject_Z. split; lra.
    + split; [intros [H|[]]; discriminate H|]. left. repeat split. exact Hs.
Qed.

(** The counters of the operations loop, whether or not there are paths. *)
Lemma security_counts (document : Document.t) :
  exists operations,
    match Document.paths document with
    | Some paths => count_security paths
    | None => (0%nat, 0%nat)
    end = (List.length (filter has_security operations), List.length operations)
    /\ (filter has_security operations = [] <->
        forall paths, Document.paths document = Some paths ->
          filter has_security (operations_of scored_methods paths) = []).
Proof.
  destruct (Document.paths document) as [paths|].
  - exists (operations_of scored_methods paths). split; [apply count_security_spec|].
    split.
    + intros H paths' E. injection E as <-. exact H.
    + intro H. now apply H.
  - exists []. split; [reflexivity|]. split; [discriminate|reflexivity].
Qed.

(** X11.  The closing suggestions of Security ("Implement authentication and
    authorization schemes", ...) are given exactly when nothing about security
    is declared: no scheme, no global requirement, no operation with a
    [security] field.  Then the score is 0.  The test is on the score before
    rounding: one operation out of five with a [security] field is worth 0.4,
    so the result shows the score 0 without these suggestions. *)
Theorem security_suggestions_iff_nothing_declared (document : Document.t) :
  (In "Implement authentication and authorization schemes"
      (suggestions (scoreSecurity document))
   <-> nothing_declared document)
  /\ (nothing_declared document -> score (scoreSecurity document) = of_Z 0)
  /\ (score (scoreSecurity (Samples.document_with (Some Samples2.mostly_open_paths) None))
      = of_Z 0
      /\ suggestions
           (scoreSecurity (Samples.document_with (Some Samples2.mostly_open_paths) None))
         = ["Define security schemes in components.securitySchemes"]).
Proof.
  split; [|split; [|split; vm_compute; reflexivity]].
  - unfold nothing_declared. rewrite <- global_requirements_false.
    unfold scoreSecurity, Tally.result; simpl suggestions.
    unfold security_tally. cbv zeta.
    destruct (security_counts document) as (operations & Hcounts & Hiff).
    rewrite Hcounts, <- Hiff. clear Hcounts Hiff.
    destruct (schemes_tally_cases document) as (Hnot & Hcases).
    pose proof (filter_length_le has_security operations) as Hle.
    destruct (filter has_security operations) as [|operation secured] eqn:Hf.
    + simpl List.length. rewrite andb_false_r.
      destruct Hcases as [(Hs & Hg & Hzero)|(Hsome & q & Hq & Hpos & _)].
      * rewrite Hzero. simpl. split; [intros _; repeat split; assumption|].
        intros _. apply in_or_app. left. apply in_or_app. right. now left.
      * rewrite Hq. simpl.
        destruct (Qeq_bool q (inject_Z 0)) eqn:E.
        { apply Qeq_bool_eq in E. unfold inject_Z in E. lra. }
        split; [intro H; contradiction|]. intros (Hs & Hg & _). tauto.
    + simpl List.length in *.
      assert (Hops : (0 <? List.length operations)%nat = true)
        by (apply Nat.ltb_lt; lia).
      rewrite Hops. simpl andb. unfold operation_security_term.
      destruct (share_positive (S (List.length secured)) (List.length operations) 2)
        as (t & Ht & Htpos & _); [lia|lia|].
      rewrite Ht.
      assert (Hsum : exists q, add (Tally.score (schemes_tally document)) (Num t) = Num q
                               /\ 0 < q).
      { destruct Hcases as [(_ & _ & Hzero)|(_ & q & Hq & Hpos & _)].
        - rewrite Hzero. simpl. eexists. split; [reflexivity|].
          unfold inject_Z. lra.
        - rewrite Hq. simpl. eexists. split; [reflexivity|]. lra. }
      destruct Hsum as (q & Hq & Hqpos).
      change (0 <? S (List.length secured))%nat with true. cbv iota.
      cbn [Tally.score Tally.finding Tally.award]. rewrite Hq. simpl eqb.
      destruct (Qeq_bool q (inject_Z 0)) eqn:E.
      { apply Qeq_bool_eq in E. unfold inject_Z in E. lra. }
      cbn [Tally.suggestions Tally.finding Tally.award].
      split; [intro H; contradiction|]. intros (_ & _ & H). discriminate H.
  - unfold nothing_declared. rewrite <- global_requirements_false.
    intros (Hs & Hg & Hops).
    unfold scoreSecurity, Tally.result; simpl score.
    unfold security_tally. cbv zeta.
    destruct (security_counts document) as (operations & Hcounts & Hiff).
    rewrite Hcounts. apply Hiff in Hops. rewrite Hops. simpl List.length.
    rewrite andb_false_r.
    destruct (schemes_tally_cases document) as (_ & [(_ & _ & Hzero)|(Hsome & _)]);
      [|tauto].
    rewrite Hzero. change (eqb (of_nat 0) (of_nat 0)) with true.
    cbn [Tally.score Tally.suggest]. rewrite Hzero. reflexivity.
Qed.

(** Without schemes and without a global requirement only the operations
    term is left. *)
Lemma security_without_schemes (document : Document.t) :
  securitySchemes document = [] ->
  global_requirements document = false ->
  within 0 2 (Tally.score (security_tally document)).
Proof.
  intros Hs Hg. unfold security_tally, operation_security_term. cbv zeta.
  destruct (security_counts document) as (operations & Hcounts & _).
  rewrite Hcounts.
  pose proof (filter_length_le has_security operations) as Hle.
  destruct (schemes_tally_cases document) as (_ & [(_ & _ & Hzero)|(Hsome & _)]);
    [|tauto].
  destruct ((0 <? List.length operations)%nat
            && (0 <? List.length (filter has_security operations))%nat)%bool eqn:E.
  - apply andb_prop in E. destruct E as [E1 E2].
    pose proof (share_within _ _ 2 Hle (proj1 (Nat.ltb_lt _ _) E1)) as Hshare.
    match goal with
    | |- context [if ?b then _ else _] => destruct b
    end; cbn [Tally.score Tally.suggest Tally.finding Tally.award]; rewrite Hzero;
      (eapply within_weaken;
       [ eapply within_add; [apply within_of_nat|exact Hshare]
       | apply Qle_by_computation; vm_compute; reflexivity
       | apply Qle_by_computation; vm_compute; reflexivity ]).
  - match goal with
    | |- context [if ?b then _ else _] => destruct b
    end; cbn [Tally.score Tally.suggest]; rewrite Hzero; simpl; unfold inject_Z;
      split; lra.
Qed.

End SecurityFacts.

(** ** The validator's statistics and warnings *)

Module ValidatorFacts.

Import JS Spec Spec2 JSFacts Evaluators LoopFacts Bounds Results Operations
  SecurityFacts.

Lemma count_operations_spec (paths : Dict.t (option PathItem.t)) :
  Validator.count_operations paths
  = List.length (operations_of Validator.methods paths).
Proof.
  unfold Validator.count_operations, operations_of, forEach.
  change (List.length _) with
    (0 + List.length
           (flat_map
              (fun pathItem =>
                 match pathItem with
                 | Some pathItem =>
                     flat_map
                       (fun method =>
                          match PathItem.method pathItem method with
                          | Some operation => [operation]
                          | None => []
                          end) Validator.methods
                 | None => []
                 end) (Dict.values paths)))%nat.
  generalize 0%nat.
  induction (Dict.values paths) as [|pathItem l IH]; intro n; [simpl; lia|].
  cbn [fold_left flat_map]. rewrite IH, length_app.
  destruct pathItem as [pathItem|]; [|simpl; lia].
  assert (Hitem : forall methods k,
             fold_left
               (fun operations method =>
                  if present (PathItem.method pathItem method) then S operations
                  else operations) methods k
             = (k + List.length
                      (flat_map
                         (fun method =>
                            match PathItem.method pathItem method with
                            | Some operation => [operation]
                            | None => []
                            end) methods))%nat).
  { induction methods as [|method methods IHm]; intro k; [simpl; lia|].
    cbn [fold_left flat_map]. rewrite IHm, length_app.
    destruct (PathItem.method pathItem method); simpl; lia. }
  rewrite Hitem. lia.
Qed.

Lemma methods_permutation : Permutation Validator.methods all_methods.
Proof.
  apply NoDup_Permutation.
  - unfold Validator.methods.
    repeat (constructor; [simpl; intuition discriminate|]). constructor.
  - unfold all_methods.
    repeat (constructor; [simpl; intuition discriminate|]). constructor.
  - intro x. unfold Validator.methods, all_methods. simpl. intuition.
Qed.

Lemma operations_of_permutation (first second : list string)
    (paths : Dict.t (option PathItem.t)) :
  Permutation first second ->
  List.length (operations_of first paths) = List.length (operations_of second paths).
Proof.
  intro Hperm. unfold operations_of.
  induction (Dict.values paths) as [|pathItem l IH]; [reflexivity|].
  cbn [flat_map]. rewrite !length_app, IH.
  destruct pathItem as [pathItem|]; [|reflexivity].
  f_equal. apply Permutation_length. now apply Permutation_flat_map.
Qed.

Lemma item_operations_bound (methods : list string) (pathItem : PathItem.t) :
  (List.length
     (flat_map
        (fun method =>
           match PathItem.method pathItem method with
           | Some operation => [operation]
           | None => []
           end) methods)
   <= List.length methods)%nat.
Proof.
  induction methods as [|method methods IH]; [simpl; lia|].
  cbn [flat_map]. rewrite length_app.
  destruct (PathItem.method pathItem method); simpl; lia.
Qed.

Lemma operations_of_bound (methods : list string) (paths : Dict.t (option PathItem.t)) :
  (List.length (operations_of methods paths)
   <= List.length methods * List.length (Dict.keys paths))%nat.
Proof.
  unfold operations_of. rewrite keys_length, <- (values_length paths).
  induction (Dict.values paths) as [|pathItem l IH]; [simpl; lia|].
  cbn [flat_map]. rewrite length_app. simpl List.length.
  assert (Hitem : (List.length
                     match pathItem with
                     | Some pathItem =>
                         flat_map
                           (fun method =>
                              match PathItem.method pathItem method with
                              | Some operation => [operation]
                              | None => []
                              end) methods
                     | None => []
                     end <= List.length methods)%nat).
  { destruct pathItem as [pathItem|]; [|simpl; lia].
    apply item_operations_bound. }
  nia.
Qed.

(** X12.  The statistics of the validator: [paths] is the number of paths;
    [operations] counts the operations of all eight methods, which is the
    total the Descriptions evaluator works with, at least the number of
    operations the other evaluators score, and at most eight per path. *)
Theorem stats_count_all_operations (document : Document.t)
    (paths : Dict.t (option PathItem.t)) :
  Document.paths document = Some paths ->
  Validator.paths (Validator.calculateStats document) = List.length (Dict.keys paths)
  /\ Validator.operations (Validator.calculateStats document)
     = totalOperations (count_descriptions paths)
  /\ (List.length (operations_of scored_methods paths)
      <= Validator.operations (Validator.calculateStats document))%nat
  /\ (Validator.operations (Validator.calculateStats document)
      <= 8 * Validator.paths (Validator.calculateStats document))%nat.
Proof.
  intro Hpaths. unfold Validator.calculateStats. rewrite Hpaths. simpl.
  rewrite count_operations_spec, count_descriptions_total.
  rewrite (operations_of_permutation _ _ paths methods_permutation).
  split; [reflexivity|]. split; [reflexivity|]. split.
  - change all_methods with (scored_methods ++ ["options"; "head"; "trace"]).
    rewrite operations_of_app. lia.
  - exact (operations_of_bound all_methods paths).
Qed.

Lemma stats_count_all_operations_witness :
  Validator.paths
    (Validator.calculateStats (Samples.document_with (Some Samples.head_only_paths) None))
  = 1%nat
  /\ Validator.operations
       (Validator.calculateStats
          (Samples.document_with (Some Samples.head_only_paths) None))
     = totalOperations (count_descriptions Samples.head_only_paths).
Proof.
  destruct (stats_count_all_operations
              (Samples.document_with (Some Samples.head_only_paths) None)
              Samples.head_only_paths eq_refl) as (Hp & Ho & _).
  split; [exact Hp|exact Ho].
Defined.

Lemma In_pushed (x s : string) (b : bool) (w : list string) :
  In x (if b then w ++ [s] else w) -> In x w \/ (b = true /\ x = s).
Proof.
  destruct b; [|tauto]. intro H. apply in_app_or in H.
  destruct H as [H|[H|[]]]; [now left|right; split; congruence].
Qed.

Lemma not_a_count (n : string) :
  "No security schemes defined" <> (n ++ " response(s) missing examples")%string.
Proof.
  intro H. apply (f_equal String.length) in H.
  rewrite PathNames.length_append in H. simpl in H. lia.
Qed.

(** X13.  When the validator warns that no security schemes are defined, the
    document has neither a [securitySchemes] component nor a [security]
    field, and the Security criterion scores at most 2 of its 10 points. *)
Theorem security_warning_bounds_score (document : Document.t) :
  In "No security schemes defined" (Validator.performAdditionalValidation document) ->
  securitySchemes document = []
  /\ Document.security document = None
  /\ scores_at_most 2 (scoreSecurity document).
Proof.
  unfold Validator.performAdditionalValidation. cbv zeta. intro H.
  apply In_pushed in H. destruct H as [H|[_ H]]; [|discriminate H].
  apply In_pushed in H. destruct H as [H|[Hcond _]].
  - exfalso.
    apply In_pushed in H. destruct H as [H|[_ H]]; [|now apply not_a_count in H].
    apply In_pushed in H. destruct H as [H|[_ H]]; [|discriminate H].
    apply In_pushed in H. destruct H as [[]|[_ H]]. discriminate H.
  - apply andb_prop in Hcond. destruct Hcond as [Hschemes Hsecurity].
    apply negb_true_iff in Hschemes, Hsecurity.
    assert (Hs : securitySchemes document = []).
    { unfold securitySchemes.
      destruct (Document.components document) as [components|]; [|reflexivity].
      destruct (Components.securitySchemes components); [discriminate|reflexivity]. }
    assert (Hg : Document.security document = None).
    { destruct (Document.security document); [discriminate|reflexivity]. }
    split; [exact Hs|]. split; [exact Hg|].
    assert (Hraw : within 0 2 (Tally.score (security_tally document))).
    { apply security_without_schemes; [exact Hs|].
      unfold global_requirements. now rewrite Hg. }
    destruct (round_within 2 _ Hraw) as (z & Hz & Hrange).
    exists z. split; [exact Hz|exact Hrange].
Qed.

Lemma security_warning_bounds_score_witness :
  scores_at_most 2 (scoreSecurity Samples.public_document).
Proof.
  destruct (security_warning_bounds_score Samples.public_document) as (_ & _ & H).
  - vm_compute. tauto.
  - exact H.
Defined.

End ValidatorFacts.

(** ** Narrative line and grade *)

Module Narrative.

Import JS Spec Spec2 Reporter.

(** X14.  In the revision with Markdown and HTML reports the narrative line
    of the overall feedback is determined by the grade: the line for A, B, C,
    D or F is the first line whenever the grade is A, B, C, D or F.  The
    console-only revision does not have this property: at 85 the grade is A
    and the line is the one for B. *)
Theorem narrative_follows_grade :
  (forall totalScore criteria,
      hd "" (generateOverallFeedback totalScore criteria)
      = narrative_for (calculateGrade totalScore))
  /\ (calculateGrade (of_nat 85) = "A"
      /\ forall criteria,
           hd "" (generateOverallFeedback_console (of_nat 85) criteria)
           = narrative_for "B").
Proof.
  split.
  - intros totalScore criteria.
    unfold generateOverallFeedback, calculateGrade. cbv zeta.
    destruct (geb totalScore (of_nat 80)); [|destruct (geb totalScore (of_nat 70));
      [|destruct (geb totalScore (of_nat 60)); [|destruct (geb totalScore (of_nat 50))]]];
      destruct (0 <? List.length (weakAreas 50 criteria))%nat; reflexivity.
  - split; [reflexivity|]. intro criteria.
    unfold generateOverallFeedback_console. cbv zeta.
    change (geb (of_nat 85) (of_nat 90)) with false.
    change (geb (of_nat 85) (of_nat 80)) with true. cbv iota.
    destruct (0 <? List.length (weakAreas 60 criteria))%nat; reflexivity.
Qed.

End Narrative.

(** ** When the overlap count is zero *)

Module NoOverlap.

Import JS Spec Spec2 Evaluators LoopFacts Redundancy SamePattern.





End NoOverlap.

(** ** Paths without a scored method *)

Module UnscoredPaths.

Import JS Spec Spec2 Evaluators LoopFacts Redundancy PathNames SamePattern.

Lemma filter_misses {A : Type} (p : A -> bool) (l : list A) (x : A) :
  In x l -> p x = false -> (List.length (filter p l) < List.length l)%nat.
Proof.
  induction l as [|y l IH]; intros Hin Hx; [destruct Hin|].
  pose proof (filter_length_le p l) as Hle. simpl.
  destruct Hin as [->|Hin].
  - rewrite Hx. lia.
  - specialize (IH Hin Hx). destruct (p y); simpl; lia.
Qed.

(** The pattern of a path: a parameter between braces becomes [{id}]. *)
Lemma placeholder_for_parameter (prefix name rest : string) :
  no_open_brace prefix = true ->
  no_close_brace name = true ->
  name <> "" ->
  normalizedPath (prefix ++ "{" ++ name ++ "}" ++ rest)%string
  = (prefix ++ "{id}" ++ normalizedPath rest)%string.
Proof.
  intros Hprefix Hname Hne. unfold normalizedPath.
  rewrite (replace_params_prefix prefix _ Hprefix). f_equal.
  change ("{" ++ name ++ "}" ++ rest)%string
    with (String "{" (name ++ String "}" rest))%string.
  cbn [Str.replace_params]. simpl Ascii.eqb. cbv iota.
  assert (Hpos : (0 < 0 + String.length name)%nat).
  { destruct name; [congruence|simpl; lia]. }
  rewrite (param_tail_name name rest 0 Hname Hpos). simpl plus.
  change (name ++ String "}" rest)%string with (name ++ ("}" ++ rest))%string.
  rewrite <- append_assoc.
  replace (S (String.length name)) with (String.length (name ++ "}")%string)
    by (rewrite length_append; simpl; lia).
  rewrite replace_params_skip. reflexivity.
Qed.

(** A path without parameter is its own pattern. *)
Lemma pattern_without_parameter (path : string) :
  no_open_brace path = true -> normalizedPath path = path.
Proof.
  intro H. unfold normalizedPath.
  induction path as [|c path IH]; [reflexivity|].
  simpl in H. apply andb_prop in H. destruct H as [Hc Hpath].
  apply negb_true_iff in Hc. cbn [Str.replace_params]. rewrite Hc, (IH Hpath).
  reflexivity.
Qed.

(** C7.  The pattern of a path is its text with each parameter between braces
    replaced by [{id}].  The pattern is registered only for a path that
    defines one of [get], [post], [put], [patch], [delete], while the overlap
    count subtracts the number of registered patterns from the number of all
    paths.  So as soon as one path defines none of these methods the count is
    positive: the evaluator reports that many potentially overlapping paths,
    suggests a review and adds no bonus to the score, even when no two paths
    have the same pattern and the difference between the number of paths and
    the number of distinct patterns is 0. *)
Theorem unscored_path_withholds_bonus (document : Document.t)
    (document_paths : Dict.t (option PathItem.t)) (path : string) :
  Document.paths document = Some document_paths ->
  In path (Dict.keys document_paths) ->
  has_scored_method document_paths path = false ->
  let result := scorePathsAndOperations document in
  let pathCount := Z.of_nat (List.length (Dict.keys document_paths)) in
  (forall prefix name rest,
      no_open_brace prefix = true -> no_close_brace name = true -> name <> "" ->
      normalizedPath (prefix ++ "{" ++ name ++ "}" ++ rest)%string
      = (prefix ++ "{id}" ++ normalizedPath rest)%string)
  /\ (forall plain, no_open_brace plain = true -> normalizedPath plain = plain)
  /\ overlappingPaths document_paths
     = (pathCount - Z.of_nat (distinct (scored_patterns document_paths)))%Z
  /\ (0 < overlappingPaths document_paths)%Z
  /\ score result = round (Tally.score (naming_and_crud_tally document_paths))
  /\ feedback result
     = Tally.feedback (naming_and_crud_tally document_paths)
       ++ [(string_of_Z (overlappingPaths document_paths)
            ++ " potentially overlapping paths detected")%string]
  /\ In "Review path structure for redundancy" (suggestions result)
  /\ (NoDup (all_patterns document_paths) ->
      (pathCount - Z.of_nat (distinct (all_patterns document_paths)) = 0)%Z).
Proof.
  intros Hpaths Hin Hnone. cbv zeta.
  split; [exact placeholder_for_parameter|].
  split; [exact pattern_without_parameter|].
  split; [apply overlappingPaths_spec|].
  assert (Hpos : (0 < overlappingPaths document_paths)%Z).
  { rewrite overlappingPaths_spec. unfold scored_patterns, distinct.
    pose proof (nodup_length_le
                  (map normalizedPath
                     (filter (has_scored_method document_paths)
                        (Dict.keys document_paths)))) as Hd.
    rewrite length_map in Hd.
    pose proof (filter_misses (has_scored_method document_paths)
                  (Dict.keys document_paths) path Hin Hnone) as Hf.
    lia. }
  split; [exact Hpos|].
  assert (Hne : (overlappingPaths document_paths =? 0)%Z = false)
    by (apply Z.eqb_neq; lia).
  pose proof (naming_and_crud_suggestions document_paths) as Hnosuggestion.
  unfold scorePathsAndOperations. rewrite Hpaths.
  unfold pathsAndOperations_tally. cbv zeta. rewrite Hne.
  split; [|split; [|split]].
  - match goal with
    | |- context [if ?b then _ else _] => destruct b
    end; reflexivity.
  - match goal with
    | |- context [if ?b then _ else _] => destruct b
    end; reflexivity.
  - match goal with
    | |- context [if ?b then _ else _] => destruct b
    end; simpl; rewrite ?Hnosuggestion; simpl; tauto.
  - intro Hnodup. unfold distinct, all_patterns in *.
    rewrite (nodup_fixed_point string_dec Hnodup), length_map. lia.
Qed.

Lemma unscored_path_withholds_bonus_witness :
  overlappingPaths Samples.head_only_paths = 1%Z
  /\ score (scorePathsAndOperations
              (Samples.document_with (Some Samples.head_only_paths) None))
     = of_Z 7
  /\ feedback (scorePathsAndOperations
                 (Samples.document_with (Some Samples.head_only_paths) None))
     = [ "1/1 paths follow RESTful naming conventions";
         "1 potentially overlapping paths detected" ]
  /\ In "Review path structure for redundancy"
       (suggestions (scorePathsAndOperations
                       (Samples.document_with (Some Samples.head_only_paths) None)))
  /\ (1 - Z.of_nat (distinct (all_patterns Samples.head_only_paths)) = 0)%Z.
Proof.
  destruct (unscored_path_withholds_bonus
              (Samples.document_with (Some Samples.head_only_paths) None)
              Samples.head_only_paths "/health")
    as (_ & _ & Hcount & _ & Hscore & Hfeedback & Hsuggestion & Hdistinct).
  - reflexivity.
  - simpl. now left.
  - reflexivity.
  - split; [rewrite Hcount; reflexivity|].
    split; [rewrite Hscore; vm_compute; reflexivity|].
    split; [rewrite Hfeedback; reflexivity|].
    split; [exact Hsuggestion|].
    apply Hdistinct. vm_compute. constructor; [intros []|constructor].
Defined.

End UnscoredPaths.
